(** * Legacy reviews export: the COPY-block reader, the identity resolver and
      the streaming export of [scripts/export_salsamenteria_reviews_csv.py].

    Text is modelled by [string]: a character is a code point below 256, so
    the classes of the interpreter (white space, lower case) are the ones it
    has on that range.  A text file opened for reading is the list of the raw
    lines its iterator produces, each one still carrying its line end. *)

From Stdlib Require Import String Ascii List ZArith Lia Bool Arith.
From Stdlib Require Import Permutation Sorted.
From Stdlib Require Import DecimalString DecimalZ.
Import ListNotations.

Local Open Scope string_scope.
Local Open Scope list_scope.

(** ** Characters *)

Module Chr.

Definition tab : ascii := "009"%char.
Definition nl : ascii := "010"%char.
Definition cr : ascii := "013"%char.
Definition space : ascii := " "%char.
Definition comma : ascii := ","%char.
Definition underscore : ascii := "_"%char.

Definition code (c : ascii) : nat := nat_of_ascii c.

Definition between (lo hi : nat) (c : ascii) : bool :=
  (lo <=? code c)%nat && (code c <=? hi)%nat.

(** [str.isspace] and the class [\s] of a text pattern. *)
Definition is_space (c : ascii) : bool :=
  between 9 13 c || between 28 32 c
  || (code c =? 133)%nat || (code c =? 160)%nat.

(** The white space [int] lets go at both ends of its argument. *)
Definition is_int_space (c : ascii) : bool :=
  between 9 13 c || (code c =? 32)%nat
  || (code c =? 133)%nat || (code c =? 160)%nat.

Definition is_digit (c : ascii) : bool := between 48 57 c.

(** The class [[a-z0-9_]]. *)
Definition is_table_char (c : ascii) : bool :=
  between 97 122 c || is_digit c || Ascii.eqb c underscore.

(** The class [.] without DOTALL. *)
Definition is_dot (c : ascii) : bool := negb (Ascii.eqb c nl).

Definition is_nl (c : ascii) : bool := Ascii.eqb c nl.

(** The class [[ \t]]. *)
Definition is_blank (c : ascii) : bool := Ascii.eqb c space || Ascii.eqb c tab.

(** [str.lower] on one character. *)
Definition lower (c : ascii) : ascii :=
  if between 65 90 c
     || (between 192 222 c && negb (code c =? 215)%nat)
  then ascii_of_nat (code c + 32)
  else c.

End Chr.

(** ** The string methods the script uses *)

Module Str.

Definition tab : string := String Chr.tab "".
Definition nl : string := String Chr.nl "".
Definition cr : string := String Chr.cr "".

(** [s.rstrip(chars)], for the characters of a class. *)
Fixpoint rstrip (cls : ascii -> bool) (s : string) : string :=
  match s with
  | "" => ""
  | String c r =>
      match rstrip cls r with
      | "" => if cls c then "" else String c ""
      | r' => String c r'
      end
  end.

Fixpoint lstrip (cls : ascii -> bool) (s : string) : string :=
  match s with
  | "" => ""
  | String c r => if cls c then lstrip cls r else s
  end.

(** [s.strip()]. *)
Definition strip (s : string) : string :=
  lstrip Chr.is_space (rstrip Chr.is_space s).

(** [s.split(sep)] for a separator of one character. *)
Fixpoint split (sep : ascii) (s : string) : list string :=
  match s with
  | "" => [""]
  | String c r =>
      if Ascii.eqb c sep then "" :: split sep r
      else match split sep r with
           | p :: ps => String c p :: ps
           | [] => [String c ""]
           end
  end.

(** [s.startswith(p)], giving the rest of [s] when it does. *)
Fixpoint drop_prefix (p s : string) : option string :=
  match p, s with
  | "", _ => Some s
  | String a p', String b s' =>
      if Ascii.eqb a b then drop_prefix p' s' else None
  | String _ _, "" => None
  end.

Definition startswith (p s : string) : bool :=
  match drop_prefix p s with Some _ => true | None => false end.

(** [s.replace(old, new)] for a non-empty [old]: the occurrences are taken
    from the left and do not overlap.  [skip] counts the characters of the
    occurrence just replaced that are still to be passed over. *)
Fixpoint replace_from (skip : nat) (old new s : string) : string :=
  match s with
  | "" => ""
  | String c r =>
      match skip with
      | S k => replace_from k old new r
      | O =>
          if startswith old s
          then new ++ replace_from (String.length old - 1) old new r
          else String c (replace_from 0 old new r)
      end
  end.

Definition replace (old new s : string) : string := replace_from 0 old new s.

(** [re.sub(cls+, repl, s)]: every maximal run of the class becomes [repl].
    [inrun] tells that the previous character belonged to a run. *)
Fixpoint sub_runs (cls : ascii -> bool) (repl : string) (inrun : bool)
         (s : string) : string :=
  match s with
  | "" => ""
  | String c r =>
      if cls c
      then if inrun then sub_runs cls repl true r
           else repl ++ sub_runs cls repl true r
      else String c (sub_runs cls repl false r)
  end.

Fixpoint lower (s : string) : string :=
  match s with
  | "" => ""
  | String c r => String (Chr.lower c) (lower r)
  end.

(** [a in b] on strings. *)
Fixpoint contains (a b : string) : bool :=
  startswith a b
  || match b with
     | "" => false
     | String _ r => contains a r
     end.

End Str.

(** ** [int(s)] on a string *)

Module PyInt.

Definition digit_value (c : ascii) : Z := Z.of_nat (Chr.code c - 48).

(** Decimal digits with single underscores between them. [after_digit] tells
    that the previous character was a digit. *)
Fixpoint digits (acc : Z) (after_digit : bool) (s : string) : option Z :=
  match s with
  | "" => if after_digit then Some acc else None
  | String c r =>
      if Chr.is_digit c then digits (acc * 10 + digit_value c) true r
      else if Ascii.eqb c Chr.underscore
           then if after_digit then digits acc false r else None
           else None
  end.

(** [None] stands for the ValueError of the interpreter.  The cap on the
    length of a literal that recent interpreters have is left out. *)
Definition parse (s : string) : option Z :=
  match Str.lstrip Chr.is_int_space (Str.rstrip Chr.is_int_space s) with
  | String "-" r => option_map Z.opp (digits 0 false r)
  | String "+" r => digits 0 false r
  | t => digits 0 false t
  end.

End PyInt.

(** ** The header pattern [COPY_START_RE]

    A pattern is a sequence of atoms, anchored at both ends; a repetition
    is greedy and gives characters back when what follows does not match,
    as the backtracking matcher of [re] does. *)

Module Re.

Inductive atom : Type :=
  | Lit (s : string)
  | Many1 (cls : ascii -> bool)
  | Many0 (cls : ascii -> bool)
  | Group1 (name : string) (cls : ascii -> bool).

Definition captures : Type := list (string * string).

Section Greedy.
Context {A : Type}.

(** [cls*]: the longest run first, then shorter ones.  The continuation
    gets the characters taken and the rest of the subject. *)
Fixpoint star (cls : ascii -> bool) (k : string -> string -> option A)
         (s : string) : option A :=
  match s with
  | String c r =>
      if cls c
      then match star cls (fun taken rest => k (String c taken) rest) r with
           | Some a => Some a
           | None => k "" s
           end
      else k "" s
  | "" => k "" s
  end.

(** [cls+]. *)
Definition plus (cls : ascii -> bool) (k : string -> string -> option A)
           (s : string) : option A :=
  match s with
  | String c r =>
      if cls c then star cls (fun taken rest => k (String c taken) rest) r
      else None
  | "" => None
  end.
End Greedy.

(** [$]: the end of the subject, or just before a final newline. *)
Definition at_end (s : string) : bool :=
  String.eqb s "" || String.eqb s Str.nl.

Fixpoint run (p : list atom) (caps : captures) (s : string) : option captures :=
  match p with
  | [] => if at_end s then Some caps else None
  | Lit l :: p' =>
      match Str.drop_prefix l s with
      | Some rest => run p' caps rest
      | None => None
      end
  | Many1 cls :: p' => plus cls (fun _ rest => run p' caps rest) s
  | Many0 cls :: p' => star cls (fun _ rest => run p' caps rest) s
  | Group1 name cls :: p' =>
      plus cls (fun taken rest => run p' ((name, taken) :: caps) rest) s
  end.

(** [pattern.match(s)]. *)
Definition match_ (p : list atom) (s : string) : option captures := run p [] s.

Fixpoint group (name : string) (caps : captures) : string :=
  match caps with
  | [] => ""
  | (n, v) :: rest => if String.eqb n name then v else group name rest
  end.

End Re.

(** [^COPY\s+public\.(?P<table>[a-z0-9_]+)\s+\((?P<cols>.+)\)\s+FROM\s+stdin;\s*$] *)
Definition COPY_START_RE : list Re.atom :=
  [ Re.Lit "COPY"; Re.Many1 Chr.is_space; Re.Lit "public.";
    Re.Group1 "table" Chr.is_table_char; Re.Many1 Chr.is_space; Re.Lit "(";
    Re.Group1 "cols" Chr.is_dot; Re.Lit ")"; Re.Many1 Chr.is_space;
    Re.Lit "FROM"; Re.Many1 Chr.is_space; Re.Lit "stdin;";
    Re.Many0 Chr.is_space ].

(** ** Errors *)

(** The data each call of [die] puts in its message. *)
Inductive fatal : Type :=
| ColumnCount (got expected : nat)
| BlockNotFound
| BlockNotTerminated
| BusinessNotFound (business_name : string) (candidates : list string)
| BusinessAmbiguous (business_name : string) (ids : list Z)
| MissingInput (which : string)
| NoLocations (business_id : Z) (business_name : string)
| ReviewsColumnCount (line_no got : nat).

(** [die] raises SystemExit with code 2; [int] raises ValueError, an index
    past the end of a list IndexError, a key missing from a dictionary
    KeyError, and [mkdir] or [open] refused by the file system OSError. *)
Inductive exn : Type :=
| SystemExit (why : fatal)
| ValueError
| IndexError
| KeyError
| OSError.

Inductive res (A : Type) : Type :=
| Ok (a : A)
| Raise (e : exn).
Arguments Ok {A} a.
Arguments Raise {A} e.

Definition bind {A B : Type} (m : res A) (f : A -> res B) : res B :=
  match m with
  | Ok a => f a
  | Raise e => Raise e
  end.

Notation "x <- m ;; k" := (bind m (fun x => k))
  (at level 61, m at next level, right associativity).

Definition die {A : Type} (why : fatal) : res A := Raise (SystemExit why).

Definition int (s : string) : res Z :=
  match PyInt.parse s with
  | Some z => Ok z
  | None => Raise ValueError
  end.

(** [row[i]]. *)
Definition item (row : list string) (i : nat) : res string :=
  match nth_error row i with
  | Some v => Ok v
  | None => Raise IndexError
  end.

(** ** [decode_copy_text] and [normalize_text] *)

Definition decode_copy_text (s : string) : string :=
  let s := Str.replace "\\" "\" s in
  let s := Str.replace "\t" Str.tab s in
  let s := Str.replace "\n" Str.nl s in
  let s := Str.replace "\r" Str.cr s in
  s.

Definition normalize_text (s : string) (keep_newlines : bool) : string :=
  let s := Str.replace Str.cr Str.nl (Str.replace (Str.cr ++ Str.nl) Str.nl s) in
  let s := Str.sub_runs Chr.is_blank " " false s in
  let s := Str.sub_runs Chr.is_nl Str.nl false s in
  let s := Str.strip s in
  if negb keep_newlines then Str.replace Str.nl "\n" s else s.

(** ** [iter_copy_rows] *)

(** How the generator ends: it returns, leaving [rest] of the file unread,
    or [die] stops it. *)
Inductive ending : Type :=
| Returned (rest : list string)
| Died (why : fatal).

(** What a consumer that exhausts the generator sees: the rows in the order
    they are yielded, then the ending. *)
Record rows_read : Type := MkRead {
  yielded : list (list string);
  outcome : ending
}.

Definition yield (row : list string) (r : rows_read) : rows_read :=
  MkRead (row :: yielded r) (outcome r).

Definition line_of (raw : string) : string := Str.rstrip Chr.is_nl raw.

Definition split_tabs (line : string) : list string := Str.split Chr.tab line.

(** The column count a line declares when it is a header for [expected_table]. *)
Definition header_columns (expected_table line : string) : option nat :=
  match Re.match_ COPY_START_RE line with
  | None => None
  | Some m =>
      if negb (String.eqb (Re.group "table" m) expected_table) then None
      else
        let cols := map Str.strip (Str.split Chr.comma (Re.group "cols" m)) in
        Some (List.length cols)
  end.

Definition count_differs (cols_count : option nat) (parts : list string) : bool :=
  match cols_count with
  | Some n => negb (List.length parts =? n)%nat
  | None => false
  end.

Fixpoint copy_rows_from (expected_table : string) (in_copy : bool)
         (cols_count : option nat) (f : list string) : rows_read :=
  match f with
  | [] =>
      if negb in_copy then MkRead [] (Died BlockNotFound)
      else MkRead [] (Died BlockNotTerminated)
  | raw :: f' =>
      let line := line_of raw in
      if negb in_copy then
        match header_columns expected_table line with
        | None => copy_rows_from expected_table in_copy cols_count f'
        | Some n => copy_rows_from expected_table true (Some n) f'
        end
      else if String.eqb line "\." then MkRead [] (Returned f')
      else
        let parts := split_tabs line in
        if count_differs cols_count parts
        then MkRead []
               (Died (ColumnCount (List.length parts)
                                  (match cols_count with Some n => n | None => 0%nat end)))
        else yield parts (copy_rows_from expected_table in_copy cols_count f')
  end.

Definition iter_copy_rows (path : list string) (expected_table : string)
  : rows_read :=
  copy_rows_from expected_table false None path.

(** The reading of one raw line by the loop above. *)
Definition is_header (expected_table raw : string) : option nat :=
  header_columns expected_table (line_of raw).

Definition is_terminator (raw : string) : bool := String.eqb (line_of raw) "\.".

Definition row_of (raw : string) : list string := split_tabs (line_of raw).

(** ** The [for] loop over a generator *)

(** The body runs on each row as it is yielded; the ending of the generator
    is met only after the rows before it went through the body. *)
Fixpoint for_each {A : Type} (body : A -> list string -> res A)
         (rows : list (list string)) (acc : A) : res A :=
  match rows with
  | [] => Ok acc
  | row :: rows' => acc' <- body acc row ;; for_each body rows' acc'
  end.

Definition for_rows {A : Type} (g : rows_read)
           (body : A -> list string -> res A) (init : A) : res A :=
  acc <- for_each body (yielded g) init ;;
  match outcome g with
  | Died why => die why
  | Returned _ => Ok acc
  end.

(** ** Businesses and locations *)

Module Business.
Record t : Type := mk { id : Z; name : string }.
End Business.

Module Location.
Record t : Type := mk { id : Z; name : string; business_id : Z }.
End Location.

Definition match_business (business_name : string)
           (matches : list Business.t) (row : list string)
  : res (list Business.t) :=
  r0 <- item row 0 ;;
  bid <- int r0 ;;
  r2 <- item row 2 ;;
  let name := decode_copy_text r2 in
  if String.eqb name business_name
  then Ok (matches ++ [Business.mk bid name])
  else Ok matches.

Definition close_match (business_name : string)
           (candidates : list string) (row : list string)
  : res (list string) :=
  r2 <- item row 2 ;;
  let name := decode_copy_text r2 in
  if Str.contains (Str.lower business_name) (Str.lower name)
  then Ok (candidates ++ [name])
  else Ok candidates.

Definition find_business_id_by_name (BUSINESS_SQL : list string)
           (business_name : string) : res Business.t :=
  matches <- for_rows (iter_copy_rows BUSINESS_SQL "business_business")
                      (match_business business_name) [] ;;
  match matches with
  | [] =>
      candidates <- for_rows (iter_copy_rows BUSINESS_SQL "business_business")
                             (close_match business_name) [] ;;
      die (BusinessNotFound business_name (firstn 8 candidates))
  | [m] => Ok m
  | _ :: _ :: _ =>
      die (BusinessAmbiguous business_name (map Business.id matches))
  end.

(** [sorted(locs, key=lambda l: l.id)]: a stable sort. *)
Fixpoint insert_by_id (l : Location.t) (sorted : list Location.t)
  : list Location.t :=
  match sorted with
  | [] => [l]
  | x :: rest =>
      if (Location.id l <=? Location.id x)%Z then l :: sorted
      else x :: insert_by_id l rest
  end.

Definition sorted_by_id (locs : list Location.t) : list Location.t :=
  fold_right insert_by_id [] locs.

Definition keep_location (business_id : Z)
           (locs : list Location.t) (row : list string)
  : res (list Location.t) :=
  r0 <- item row 0 ;;
  lid <- int r0 ;;
  r2 <- item row 2 ;;
  let name := decode_copy_text r2 in
  r3 <- item row 3 ;;
  bid <- int r3 ;;
  if (bid =? business_id)%Z
  then Ok (locs ++ [Location.mk lid name bid])
  else Ok locs.

Definition load_locations_for_business (LOCATION_SQL : list string)
           (business_id : Z) : res (list Location.t) :=
  locs <- for_rows (iter_copy_rows LOCATION_SQL "business_location")
                   (keep_location business_id) [] ;;
  Ok (sorted_by_id locs).

(** ** Dictionaries with integer keys, in insertion order *)

Module Dict.

Definition t (V : Type) : Type := list (Z * V).

Fixpoint get {V : Type} (k : Z) (d : t V) : option V :=
  match d with
  | [] => None
  | (k', v) :: d' => if (k' =? k)%Z then Some v else get k d'
  end.

(** [d[k] = v]: an existing key keeps its place. *)
Fixpoint set {V : Type} (k : Z) (v : V) (d : t V) : t V :=
  match d with
  | [] => [(k, v)]
  | (k', v') :: d' =>
      if (k' =? k)%Z then (k', v) :: d' else (k', v') :: set k v d'
  end.

Definition keys {V : Type} (d : t V) : list Z := map fst d.
Definition values {V : Type} (d : t V) : list V := map snd d.

Definition mem {V : Type} (k : Z) (d : t V) : bool :=
  match get k d with Some _ => true | None => false end.

End Dict.

(** ** Output files *)

Inductive cell : Type :=
| CInt (z : Z)
| CStr (s : string).

Definition csv_row : Type := list cell.

(** An output file object: the location its name is built from, the rows
    written and still buffered, the rows flushed, and how many times it was
    closed. *)
Record out_file : Type := MkFile {
  opened_for : Location.t;
  pending : list csv_row;
  flushed : list csv_row;
  closes : nat
}.

Definition fieldnames : list string :=
  [ "location_id"; "location_name"; "review_uid"; "review_date"; "rating";
    "source"; "author"; "title"; "text"; "url" ].

Definition writerow (row : csv_row) (f : out_file) : out_file :=
  MkFile (opened_for f) (pending f ++ [row]) (flushed f) (closes f).

Definition close (f : out_file) : out_file :=
  MkFile (opened_for f) [] (flushed f ++ pending f) (S (closes f)).

Fixpoint update {A : Type} (i : nat) (g : A -> A) (l : list A) : list A :=
  match l, i with
  | [], _ => []
  | x :: l', O => g x :: l'
  | x :: l', S i' => x :: update i' g l'
  end.

(** [open_writers] where the file system refuses nothing: the file objects
    are numbered in the order they are opened; [writers] maps a location id
    to the number of its file.  [open_writers_on] below is the loop on a file
    system that may refuse, and [export_reviews_in] the export there. *)
Fixpoint open_writers_from (locations : list Location.t)
         (files : list out_file) (writers : Dict.t nat)
  : list out_file * Dict.t nat :=
  match locations with
  | [] => (files, writers)
  | loc :: rest =>
      let f := MkFile loc [] [] 0 in
      let f := writerow (map CStr fieldnames) f in
      open_writers_from rest (files ++ [f])
                        (Dict.set (Location.id loc) (List.length files) writers)
  end.

Definition open_writers (locations : list Location.t)
  : list out_file * Dict.t nat :=
  open_writers_from locations [] [].

(** ** [export_reviews] *)

Inductive printed : Type :=
| Progress (location_id count : Z)
| Done (total : Z)
| LocationCount (id : Z) (name : string) (count : Z)
| BusinessLine (name : string) (id : Z)
| LocationsHeading
| LocationLine (id : Z) (name : string).

Record scan_state : Type := MkScan {
  counts : Dict.t Z;
  files : list out_file;
  log : list printed
}.

(** How one turn of the loop body ends. *)
Inductive turn : Type :=
| Continue (st : scan_state)
| Stop (e : exn).

Definition field (normalize_whitespace keep_newlines : bool)
           (parts : list string) (i : nat) : string :=
  let v := nth i parts "" in
  if String.eqb v "\N" then ""
  else
    let v := decode_copy_text v in
    if normalize_whitespace then normalize_text v keep_newlines else v.

Definition review_row (normalize_whitespace keep_newlines : bool)
           (location_id : Z) (loc : Location.t) (parts : list string)
  : csv_row :=
  let field := field normalize_whitespace keep_newlines parts in
  [ CInt location_id; CStr (Location.name loc); CStr (field 1%nat);
    CStr (field 8%nat); CStr (field 6%nat); CStr (field 2%nat);
    CStr (field 7%nat); CStr (field 3%nat); CStr (field 4%nat);
    CStr (field 5%nat) ].

Section ExportLoop.
Variable business_id : Z.
Variable loc_by_id : Dict.t Location.t.
Variable writers : Dict.t nat.
Variables normalize_whitespace keep_newlines : bool.
Variable progress_every : Z.

(** The body of the loop for a data row of 17 fields; [loc_ids] is the set
    of the keys of [loc_by_id]. *)
Definition export_row (parts : list string) (st : scan_state) : turn :=
  let p11 := nth 11 parts "" in
  if String.eqb p11 "\N" then Continue st
  else
    match int p11 with
    | Raise e => Stop e
    | Ok b =>
        if negb (b =? business_id)%Z then Continue st
        else
          let p12 := nth 12 parts "" in
          if String.eqb p12 "\N" then Continue st
          else
            match int p12 with
            | Raise e => Stop e
            | Ok location_id =>
                if negb (Dict.mem location_id loc_by_id) then Continue st
                else
                  match Dict.get location_id loc_by_id,
                        Dict.get location_id writers,
                        Dict.get location_id (counts st) with
                  | Some loc, Some h, Some c =>
                      let row := review_row normalize_whitespace keep_newlines
                                            location_id loc parts in
                      let files' := update h (writerow row) (files st) in
                      let c' := (c + 1)%Z in
                      let counts' := Dict.set location_id c' (counts st) in
                      let log' :=
                        if (0 <? progress_every)%Z
                           && (c' mod progress_every =? 0)%Z
                        then log st ++ [Progress location_id c']
                        else log st in
                      Continue (MkScan counts' files' log')
                  | _, _, _ => Stop KeyError
                  end
            end
    end.

(** The scan of the reviews file: the state when the loop is left and the
    exception that left it, if any. *)
Fixpoint scan_reviews (in_copy : bool) (line_no : nat) (f : list string)
         (st : scan_state) : scan_state * option exn :=
  match f with
  | [] => (st, None)
  | raw :: f' =>
      let line_no := S line_no in
      let line := line_of raw in
      if negb in_copy then
        if Str.startswith "COPY public.reviews_review " line
        then scan_reviews true line_no f' st
        else scan_reviews in_copy line_no f' st
      else if String.eqb line "\." then (st, None)
      else
        let parts := split_tabs line in
        if negb (List.length parts =? 17)%nat
        then (st, Some (SystemExit
                          (ReviewsColumnCount line_no (List.length parts))))
        else
          match export_row parts st with
          | Continue st' => scan_reviews in_copy line_no f' st'
          | Stop e => (st, Some e)
          end
  end.
End ExportLoop.

(** What a call leaves behind: the file objects it opened, what it printed,
    and its result. *)
Record run (A : Type) : Type := MkRun {
  files_after : list out_file;
  printed_lines : list printed;
  result : res A
}.
Arguments MkRun {A} _ _ _.
Arguments files_after {A} _.
Arguments printed_lines {A} _.
Arguments result {A} _.

(** The [finally] block. *)
Fixpoint close_all (handles : list nat) (fs : list out_file) : list out_file :=
  match handles with
  | [] => fs
  | h :: rest => close_all rest (update h close fs)
  end.

Definition sum (zs : list Z) : Z := fold_left Z.add zs 0%Z.

Definition count_of (cs : Dict.t Z) (lid : Z) : Z :=
  match Dict.get lid cs with Some c => c | None => 0%Z end.

Definition make_loc_by_id (locations : list Location.t) : Dict.t Location.t :=
  fold_left (fun d l => Dict.set (Location.id l) l d) locations [].

Definition zero_counts (loc_ids : list Z) : Dict.t Z :=
  map (fun lid => (lid, 0%Z)) loc_ids.

(** The state in which the scan of the reviews starts. *)
Definition start_state (locations : list Location.t) : scan_state :=
  MkScan (zero_counts (Dict.keys (make_loc_by_id locations)))
         (fst (open_writers locations)) [].

Definition summary (locations : list Location.t) (cs : Dict.t Z)
  : list printed :=
  Done (sum (Dict.values cs))
  :: map (fun loc => LocationCount (Location.id loc) (Location.name loc)
                                   (count_of cs (Location.id loc)))
         locations.

(** What follows the scan: the [finally] block closes the files, an
    exception raised in the scan goes on to the caller, and otherwise the
    summary is printed.  The function has no return statement: its value is
    None, here [None]; [Some cs] would be a dictionary of counts handed to
    the caller. *)
Definition after_scan (locations : list Location.t) (writers : Dict.t nat)
           (left : scan_state * option exn) : run (option (Dict.t Z)) :=
  let '(st, raised) := left in
  let fs' := close_all (Dict.values writers) (files st) in
  match raised with
  | Some e => MkRun fs' (log st) (Raise e)
  | None => MkRun fs' (log st ++ summary locations (counts st)) (Ok None)
  end.

Definition export_reviews (REVIEWS_SQL : list string) (business_id : Z)
           (locations : list Location.t)
           (normalize_whitespace keep_newlines : bool) (progress_every : Z)
  : run (option (Dict.t Z)) :=
  let loc_by_id := make_loc_by_id locations in
  let writers := snd (open_writers locations) in
  after_scan locations writers
    (scan_reviews business_id loc_by_id writers normalize_whitespace
                  keep_newlines progress_every false 0 REVIEWS_SQL
                  (start_state locations)).

(** ** [main] *)

Record args : Type := MkArgs {
  business_name : string;
  no_normalize_whitespace : bool;
  arg_keep_newlines : bool;
  arg_progress_every : Z
}.

(** The three input files; [None] for a path that does not exist. *)
Record inputs : Type := MkInputs {
  BUSINESS_SQL : option (list string);
  LOCATION_SQL : option (list string);
  REVIEWS_SQL : option (list string)
}.

Definition stopped {A : Type} (e : exn) : run A := MkRun [] [] (Raise e).

Definition main (a : args) (i : inputs) : run Z :=
  match BUSINESS_SQL i, LOCATION_SQL i, REVIEWS_SQL i with
  | None, _, _ => stopped (SystemExit (MissingInput "business_business"))
  | Some _, None, _ => stopped (SystemExit (MissingInput "business_location"))
  | Some _, Some _, None => stopped (SystemExit (MissingInput "reviews_review"))
  | Some bf, Some lf, Some rf =>
      match find_business_id_by_name bf (business_name a) with
      | Raise e => stopped e
      | Ok biz =>
          match load_locations_for_business lf (Business.id biz) with
          | Raise e => stopped e
          | Ok [] =>
              stopped (SystemExit
                         (NoLocations (Business.id biz) (Business.name biz)))
          | Ok locs =>
              let heading :=
                BusinessLine (Business.name biz) (Business.id biz)
                :: LocationsHeading
                :: map (fun l => LocationLine (Location.id l) (Location.name l))
                       locs in
              let r := export_reviews rf (Business.id biz) locs
                                      (negb (no_normalize_whitespace a))
                                      (arg_keep_newlines a)
                                      (arg_progress_every a) in
              MkRun (files_after r) (heading ++ printed_lines r)
                    (match result r with
                     | Ok _ => Ok 0%Z
                     | Raise e => Raise e
                     end)
          end
      end
  end.

(** ** Reference definitions used to state the properties *)

(** The escaping COPY applies to a text field when it writes a dump, for the
    four characters [decode_copy_text] knows.  It belongs to the database,
    not to the script. *)
Fixpoint copy_escape (s : string) : string :=
  match s with
  | "" => ""
  | String c r =>
      (if Ascii.eqb c "\"%char then "\\"
       else if Ascii.eqb c Chr.tab then "\t"
       else if Ascii.eqb c Chr.nl then "\n"
       else if Ascii.eqb c Chr.cr then "\r"
       else String c "") ++ copy_escape r
  end.

(** A raw line as a dump holds it: the fields joined by tabs, then the line
    end. *)
Definition raw_line (fields : list string) : string :=
  String.concat Str.tab fields ++ Str.nl.

Definition int_or_zero (s : string) : Z :=
  match PyInt.parse s with Some z => z | None => 0%Z end.

Definition is_int (s : string) : bool :=
  match PyInt.parse s with Some _ => true | None => false end.

(** A row of the businesses block the resolver can read: an integer id at
    position 0 and a name at position 2. *)
Definition readable_business (row : list string) : bool :=
  (3 <=? List.length row)%nat && is_int (nth 0 row "").

Definition business_name_of (row : list string) : string :=
  decode_copy_text (nth 2 row "").

Definition business_of (row : list string) : Business.t :=
  Business.mk (int_or_zero (nth 0 row "")) (business_name_of row).

Definition named (business_name : string) (row : list string) : bool :=
  String.eqb (business_name_of row) business_name.

Definition resembles (business_name name : string) : bool :=
  Str.contains (Str.lower business_name) (Str.lower name).

(** A row of the locations block the resolver can read: integers at
    positions 0 and 3 and a name at position 2. *)
Definition readable_location (row : list string) : bool :=
  (4 <=? List.length row)%nat && is_int (nth 0 row "") && is_int (nth 3 row "").

Definition location_of (row : list string) : Location.t :=
  Location.mk (int_or_zero (nth 0 row "")) (decode_copy_text (nth 2 row ""))
              (int_or_zero (nth 3 row "")).

Definition owned_by (business_id : Z) (row : list string) : bool :=
  (int_or_zero (nth 3 row "") =? business_id)%Z.

Definition id_le (a b : Location.t) : Prop :=
  (Location.id a <= Location.id b)%Z.

(** The rows of a block passed one after the other through the body of the
    export loop: the state when a row stops the pass or the rows are over. *)
Fixpoint export_rows (body : list string -> scan_state -> turn)
         (rows : list (list string)) (st : scan_state)
  : scan_state * option exn :=
  match rows with
  | [] => (st, None)
  | parts :: rows' =>
      match body parts st with
      | Continue st' => export_rows body rows' st'
      | Stop e => (st, Some e)
      end
  end.

(** The test [export_reviews] makes on a line to find its block. *)
Definition opens_reviews (raw : string) : bool :=
  Str.startswith "COPY public.reviews_review " (line_of raw).

(** ** Sample data *)

Definition sample_header : string :=
  "COPY public.business_business (id, uid, business_name) FROM stdin;".

Definition t_header : string := raw_line ["COPY public.t (a, b) FROM stdin;"].

Definition t_end : string := raw_line ["\."].

Definition hello_world : string :=
  ("hello   " ++ Str.nl ++ Str.nl ++ Str.nl ++ "world  ")%string.

Definition businesses_header : string :=
  raw_line ["COPY public.business_business (id, uid, business_name, is_assigned, user_id, business_type, business_logo) FROM stdin;"].

Definition business_line (id name : string) : string :=
  raw_line [id; "u"; name; "t"; "\N"; "restaurant"; "\N"].

Definition locations_header : string :=
  raw_line ["COPY public.business_location (id, uid, name, business_id, business_sector_id, is_competitor, report_sent) FROM stdin;"].

Definition location_line (id name business_id : string) : string :=
  raw_line [id; "u"; name; business_id; "1"; "f"; "f"].

Definition sample_businesses : list string :=
  [ raw_line ["-- businesses"]; businesses_header;
    business_line "7" "Acme Foods"; business_line "8" "ACME foods srl";
    business_line "11" "Other"; business_line "12" "Twin";
    business_line "13" "Twin"; t_end ].

Definition sample_locations : list string :=
  [ locations_header; location_line "9" "Uptown" "7";
    location_line "4" "Elsewhere" "8"; location_line "3" "Downtown" "7";
    t_end ].

(** ** The state of the scan *)

Definition header_row : csv_row := map CStr fieldnames.

Definition null_or_int (s : string) : bool := String.eqb s "\N" || is_int s.

(** The data rows a file holds, flushed or not: all its rows but the header. *)
Definition data_rows (f : out_file) : list csv_row :=
  skipn 1 (flushed f ++ pending f).

Definition exported (fs : list out_file) : Z :=
  Z.of_nat (List.length (concat (map data_rows fs))).

(** A file between [open_writers] and the [finally] block. *)
Definition still_open (f : out_file) : Prop :=
  closes f = 0%nat /\ flushed f = []
  /\ exists rows, pending f = header_row :: rows.

(** What holds of the state all along the scan over [locations]: the files
    are those of the locations, in order; the counters are those of the
    known location ids; no file is closed; the counters add up to the data
    rows written. *)
Record scanning (locations : list Location.t) (st : scan_state) : Prop :=
  MkScanning {
    scanning_files : map opened_for (files st) = locations;
    scanning_keys :
      Dict.keys (counts st) = Dict.keys (make_loc_by_id locations);
    scanning_open : Forall still_open (files st);
    scanning_total : sum (Dict.values (counts st)) = exported (files st)
  }.

(** The conditions under which a reviews row is left out. *)
Definition left_out (business_id : Z) (loc_ids : list Z)
           (parts : list string) : Prop :=
  nth 11 parts "" = "\N"
  \/ (exists b, PyInt.parse (nth 11 parts "") = Some b /\ b <> business_id)
  \/ nth 12 parts "" = "\N"
  \/ (exists l, PyInt.parse (nth 12 parts "") = Some l /\ ~ In l loc_ids).

(** The file object [open_writers] makes for a location: the header row is
    written, nothing is flushed. *)
Definition fresh_file (loc : Location.t) : out_file :=
  MkFile loc [header_row] [] 0.

Definition reviews_header : string :=
  raw_line ["COPY public.reviews_review (id, uid, source, title, text, url, rating, author, review_date, status, created_at, business_id, location_id, batched_at, review_hash, ai_result, raw_data) FROM stdin;"].

Definition review_line (uid title business_id location_id : string) : string :=
  raw_line [ "1"; uid; "google"; title; "\N"; "http://x"; "5"; "Ann";
             "2020-01-01"; "ok"; "2020-01-02"; business_id; location_id;
             "\N"; "h"; "\N"; "{}" ].

Definition two_locations : list Location.t :=
  [Location.mk 3 "Downtown" 7; Location.mk 9 "Uptown" 7].

Definition sample_reviews : list string :=
  [ raw_line ["-- reviews"]; reviews_header;
    review_line "r1" "good" "7" "3"; review_line "r2" "fine\tfood" "7" "9";
    review_line "r3" "other" "8" "3"; review_line "r4" "nowhere" "7" "\N";
    review_line "r5" "unknown" "7" "4"; t_end ].

(** The same block cut short by a row of two fields. *)
Definition broken_reviews : list string :=
  [ reviews_header; review_line "r1" "good" "7" "3"; raw_line ["x"; "y"];
    review_line "r2" "late" "7" "9"; t_end ].


(** ** [slugify] and the names of the output files *)

(** The class [[^a-z0-9]]. *)
Definition not_slug_alnum (c : ascii) : bool :=
  negb (Chr.between 97 122 c || Chr.is_digit c).

Definition is_underscore (c : ascii) : bool := Ascii.eqb c Chr.underscore.

Definition slugify (s : string) : string :=
  let s := Str.lower (Str.strip s) in
  let s := Str.sub_runs not_slug_alnum "_" false s in
  let s := Str.sub_runs is_underscore "_" false s in
  let s := Str.lstrip is_underscore (Str.rstrip is_underscore s) in
  if String.eqb s "" then "location" else s.

(** [str(n)] for an integer: its decimal digits, after a minus sign when it
    is negative. *)
Definition str (z : Z) : string := NilEmpty.string_of_int (Z.to_int z).

(** The name [open_writers] gives the file of a location, under [out_dir]. *)
Definition filename (loc : Location.t) : string :=
  "salsamenteria__loc_" ++ str (Location.id loc) ++ "__"
    ++ slugify (Location.name loc) ++ ".csv".

(** ** Opening the output files on a file system that may refuse *)

(** What [open_writers] asks of the file system: [out_dir.mkdir] once, then
    [fp.open] for each file name.  Either raises OSError when refused. *)
Record disk : Type := MkDisk {
  can_mkdir : bool;
  can_open : string -> bool
}.

(** The loop of [open_writers]: an [open] that is refused raises out of the
    loop, and the file objects opened before it stay as they are. *)
Fixpoint open_writers_on (d : disk) (locations : list Location.t)
         (files : list out_file) (writers : Dict.t nat)
  : list out_file * res (Dict.t nat) :=
  match locations with
  | [] => (files, Ok writers)
  | loc :: rest =>
      if can_open d (filename loc) then
        let f := MkFile loc [] [] 0 in
        let f := writerow (map CStr fieldnames) f in
        open_writers_on d rest (files ++ [f])
                        (Dict.set (Location.id loc) (List.length files)
                                  writers)
      else (files, Raise OSError)
  end.

Definition open_writers_in (d : disk) (locations : list Location.t)
  : list out_file * res (Dict.t nat) :=
  if can_mkdir d then open_writers_on d locations [] []
  else ([], Raise OSError).

(** [export_reviews] on a file system that may refuse: [open_writers] is
    called before the [try] statement, so an exception it raises leaves the
    function at once, past the [finally] block. *)
Definition export_reviews_in (d : disk) (REVIEWS_SQL : list string)
           (business_id : Z) (locations : list Location.t)
           (normalize_whitespace keep_newlines : bool) (progress_every : Z)
  : run (option (Dict.t Z)) :=
  let loc_by_id := make_loc_by_id locations in
  match open_writers_in d locations with
  | (fs, Raise e) => MkRun fs [] (Raise e)
  | (fs, Ok writers) =>
      after_scan locations writers
        (scan_reviews business_id loc_by_id writers normalize_whitespace
                      keep_newlines progress_every false 0 REVIEWS_SQL
                      (MkScan (zero_counts (Dict.keys loc_by_id)) fs []))
  end.


(** A file system on which the name of the file of location 9 of
    [two_locations] is taken by a directory. *)
Definition uptown_taken : disk :=
  MkDisk true
         (fun name => negb (String.eqb name "salsamenteria__loc_9__uptown.csv")).

(** Two locations that share the id 3. *)
Definition twin_locations : list Location.t :=
  [Location.mk 3 "Downtown" 7; Location.mk 3 "Harbour" 7].

(** ** Predicates on text used to state properties *)

(** Every character of [s] satisfies [p]. *)
Fixpoint every_char (p : ascii -> bool) (s : string) : bool :=
  match s with
  | "" => true
  | String c r => p c && every_char p r
  end.

Definition is_not (a : ascii) (c : ascii) : bool := negb (Ascii.eqb c a).

Definition backslash : ascii := "\"%char.

(** The class [[a-z0-9_]] of the characters of a slug. *)
Definition is_slug_char (c : ascii) : bool :=
  Chr.between 97 122 c || Chr.is_digit c || is_underscore c.

(** The characters of the name of an output file. *)
Definition is_filename_char (c : ascii) : bool :=
  is_slug_char c || Ascii.eqb c "."%char || Ascii.eqb c "-"%char.

(** The header line of a block as a dump writes it for table [t] of the
    schema public with the column list [cols]. *)
Definition canonical_header (t cols : string) : string :=
  "COPY public." ++ t ++ " (" ++ cols ++ ") FROM stdin;".

(** [r] is empty or starts with a character outside the class: a run of the
    class cannot go on into [r]. *)
Definition stops (cls : ascii -> bool) (r : string) : bool :=
  match r with
  | "" => true
  | String d _ => negb (cls d)
  end.

(** ** What the export does with a block of reviews *)

(** The row belongs to the target business and to the location [lid]. *)
Definition accepts (business_id lid : Z) (parts : list string) : bool :=
  match PyInt.parse (nth 11 parts ""), PyInt.parse (nth 12 parts "") with
  | Some b, Some l => (b =? business_id)%Z && (l =? lid)%Z
  | _, _ => false
  end.

(** The foreign keys the loop reads in the row are NULL or integers: the
    business id, and the location id when the business is the target. *)
Definition typed_row (business_id : Z) (parts : list string) : bool :=
  null_or_int (nth 11 parts "")
  && match PyInt.parse (nth 11 parts "") with
     | Some b =>
         if (b =? business_id)%Z then null_or_int (nth 12 parts "") else true
     | None => true
     end.

(** The data rows due to a location out of the rows of a block, in order. *)
Definition exported_rows (nw kn : bool) (business_id : Z)
           (rows : list (list string)) (loc : Location.t) : list csv_row :=
  map (review_row nw kn (Location.id loc) loc)
      (filter (accepts business_id (Location.id loc)) rows).

Definition expected_file (nw kn : bool) (business_id : Z)
           (rows : list (list string)) (loc : Location.t) : out_file :=
  MkFile loc (header_row :: exported_rows nw kn business_id rows loc) [] 0.

Definition expected_count (business_id : Z) (rows : list (list string))
           (loc : Location.t) : Z :=
  Z.of_nat (List.length (filter (accepts business_id (Location.id loc)) rows)).


Definition sample_args : args := MkArgs "Acme Foods" false false 0.

Definition sample_inputs : inputs :=
  MkInputs (Some sample_businesses) (Some sample_locations)
           (Some sample_reviews).

(** Text in which the characters [code] gives a letter to are written as a
    backslash and that letter. *)
Fixpoint escaped (code : ascii -> option ascii) (s : string) : string :=
  match s with
  | "" => ""
  | String c r =>
      match code c with
      | Some x => String backslash (String x (escaped code r))
      | None => String c (escaped code r)
      end
  end.

(** [code] without the letter of [a]. *)
Definition uncoded (a : ascii) (code : ascii -> option ascii) (c : ascii)
  : option ascii :=
  if Ascii.eqb c a then None else code c.

(** The letters COPY writes for a tab, a newline and a carriage return. *)
Definition copy_code (c : ascii) : option ascii :=
  if Ascii.eqb c Chr.tab then Some "t"%char
  else if Ascii.eqb c Chr.nl then Some "n"%char
  else if Ascii.eqb c Chr.cr then Some "r"%char
  else None.

(** A data row that belongs in the file [f]: ten cells, the first two being
    the id and the name of the location the file was opened for. *)
Definition belongs (f : out_file) (row : csv_row) : Prop :=
  List.length row = 10%nat
  /\ nth_error row 0 = Some (CInt (Location.id (opened_for f)))
  /\ nth_error row 1 = Some (CStr (Location.name (opened_for f))).

(** Every data row the file holds, flushed or not, belongs in it. *)
Definition own_rows_only (f : out_file) : Prop :=
  Forall (belongs f) (data_rows f).
(** * Properties *)

Example header_columns_sample :
  header_columns "business_business" sample_header = Some 3%nat.
Proof. vm_compute. reflexivity. Qed.

Example header_columns_other_table :
  header_columns "business_location" sample_header = None.
Proof. vm_compute. reflexivity. Qed.

Example header_columns_wide_spacing :
  is_header "t_1" ("COPY   public.t_1" ++ Str.tab ++ "(a,b (c), d)  FROM stdin;  " ++ Str.nl)
  = Some 3%nat.
Proof. vm_compute. reflexivity. Qed.

Example header_columns_not_a_header :
  header_columns "t" "COPY public.t () FROM stdin;" = None
  /\ header_columns "t" "copy public.t (a) FROM stdin;" = None
  /\ header_columns "t" " COPY public.t (a) FROM stdin;" = None
  /\ header_columns "t" "COPY public.T (a) FROM stdin;" = None.
Proof. vm_compute. repeat split; reflexivity. Qed.

Example header_captures :
  Re.match_ COPY_START_RE "COPY public.t (a) FROM stdin;) FROM stdin;"
  = Some [("cols", "a) FROM stdin;"); ("table", "t")]
  /\ Re.match_ COPY_START_RE "COPY public.t ()) FROM stdin;"
     = Some [("cols", ")"); ("table", "t")]
  /\ Re.match_ COPY_START_RE
       ("COPY public.t (a) FROM stdin;" ++ Str.nl ++ Str.nl)
     = Some [("cols", "a"); ("table", "t")].
Proof. vm_compute. repeat split; reflexivity. Qed.

Example split_sample :
  split_tabs ("a" ++ Str.tab ++ "" ++ Str.tab ++ "b") = ["a"; ""; "b"].
Proof. vm_compute. reflexivity. Qed.

Example int_samples :
  PyInt.parse " 12 " = Some 12%Z /\ PyInt.parse "-7" = Some (-7)%Z
  /\ PyInt.parse "1_000" = Some 1000%Z /\ PyInt.parse "\N" = None
  /\ PyInt.parse "" = None /\ PyInt.parse "1__0" = None
  /\ PyInt.parse "+-5" = None /\ PyInt.parse "0012" = Some 12%Z
  /\ PyInt.parse ("7" ++ String "028"%char "") = None
  /\ PyInt.parse (String "160"%char "7") = Some 7%Z.
Proof. vm_compute. repeat split; reflexivity. Qed.

Example decode_sample :
  decode_copy_text "a\tb\\c\nd"
  = ("a" ++ Str.tab ++ "b\c" ++ Str.nl ++ "d")%string.
Proof. vm_compute. reflexivity. Qed.

Example copy_escape_sample :
  copy_escape ("a" ++ Str.tab ++ "b\c" ++ Str.nl ++ "d") = "a\tb\\c\nd".
Proof. vm_compute. reflexivity. Qed.

(** ** The reader *)

Section Reader.
Variable table : string.

Lemma copy_rows_skip (cc : option nat) (pre f : list string) :
  Forall (fun raw => is_header table raw = None) pre ->
  copy_rows_from table false cc (pre ++ f) = copy_rows_from table false cc f.
Proof.
  induction 1 as [|raw pre Hraw _ IH]; simpl; [reflexivity|].
  unfold is_header in Hraw. rewrite Hraw. exact IH.
Qed.

Lemma copy_rows_enter (cc : option nat) (hdr : string) (n : nat)
      (f : list string) :
  is_header table hdr = Some n ->
  copy_rows_from table false cc (hdr :: f)
  = copy_rows_from table true (Some n) f.
Proof.
  unfold is_header. intros H. simpl. rewrite H. reflexivity.
Qed.

Lemma copy_rows_data (n : nat) (rows f : list string) :
  Forall (fun raw => is_terminator raw = false) rows ->
  Forall (fun raw => List.length (row_of raw) = n) rows ->
  copy_rows_from table true (Some n) (rows ++ f)
  = MkRead (map row_of rows
              ++ yielded (copy_rows_from table true (Some n) f))
           (outcome (copy_rows_from table true (Some n) f)).
Proof.
  intros Hterm. induction Hterm as [|raw rows Hraw _ IH]; intros Hn.
  - simpl. destruct (copy_rows_from table true (Some n) f); reflexivity.
  - inversion Hn as [|? ? Hlen Hn']; subst.
    change ((raw :: rows) ++ f) with (raw :: (rows ++ f)).
    cbn [copy_rows_from negb].
    unfold is_terminator in Hraw. rewrite Hraw.
    unfold count_differs. fold (row_of raw).
    rewrite Nat.eqb_refl. cbn [negb].
    rewrite (IH Hn'). reflexivity.
Qed.

Lemma copy_rows_terminator (cc : option nat) (term : string)
      (rest : list string) :
  is_terminator term = true ->
  copy_rows_from table true cc (term :: rest) = MkRead [] (Returned rest).
Proof.
  unfold is_terminator. intros H. simpl. rewrite H. reflexivity.
Qed.

Lemma copy_rows_bad_row (n : nat) (bad : string) (rest : list string) :
  is_terminator bad = false ->
  List.length (row_of bad) <> n ->
  copy_rows_from table true (Some n) (bad :: rest)
  = MkRead [] (Died (ColumnCount (List.length (row_of bad)) n)).
Proof.
  unfold is_terminator. intros Ht Hn. simpl. rewrite Ht.
  fold (row_of bad). apply Nat.eqb_neq in Hn. rewrite Hn. reflexivity.
Qed.

(** Past the header, a file with no terminator left never lets the reader
    return. *)
Lemma copy_rows_unterminated (n : nat) (f : list string) :
  Forall (fun raw => is_terminator raw = false) f ->
  outcome (copy_rows_from table true (Some n) f) = Died BlockNotTerminated
  \/ exists got,
      got <> n
      /\ outcome (copy_rows_from table true (Some n) f)
         = Died (ColumnCount got n).
Proof.
  induction 1 as [|raw f Hraw _ IH]; [left; reflexivity|].
  cbn [copy_rows_from negb]. unfold is_terminator in Hraw. rewrite Hraw.
  unfold count_differs.
  destruct (Nat.eqb_spec (List.length (split_tabs (line_of raw))) n) as [E|E];
    cbn [negb].
  - exact IH.
  - right. exists (List.length (split_tabs (line_of raw))). auto.
Qed.
End Reader.

(** C1, as amended: for every file and table, when each line between the
    first header for the requested table and the first terminator after it
    has the field count the header declares, the reader yields exactly the
    tab-split rows of those lines, in file order; the lines before the
    header, whatever they are, yield nothing, and the reader returns at the
    terminator leaving the rest of the file unread. *)
Theorem iter_copy_rows_block (table : string) (pre : list string)
        (hdr : string) (n : nat) (rows : list string) (term : string)
        (rest : list string) :
  Forall (fun raw => is_header table raw = None) pre ->
  is_header table hdr = Some n ->
  Forall (fun raw => is_terminator raw = false) rows ->
  is_terminator term = true ->
  Forall (fun raw => List.length (row_of raw) = n) rows ->
  iter_copy_rows (pre ++ hdr :: rows ++ term :: rest) table
  = MkRead (map row_of rows) (Returned rest).
Proof.
  intros Hpre Hhdr Hrows Hterm Hn. unfold iter_copy_rows.
  rewrite (copy_rows_skip table None pre _ Hpre).
  rewrite (copy_rows_enter table None hdr n _ Hhdr).
  rewrite (copy_rows_data table n rows _ Hrows Hn).
  rewrite (copy_rows_terminator table (Some n) term rest Hterm).
  simpl. rewrite app_nil_r. reflexivity.
Qed.

Lemma iter_copy_rows_block_witness :
  iter_copy_rows
    ([raw_line ["-- dump"];
      raw_line ["COPY public.other (x) FROM stdin;"]; raw_line ["1"; "2"; "3"];
      t_end]
       ++ t_header :: [raw_line ["a"; "b"]; raw_line [""; "\N"]]
       ++ t_end :: [raw_line ["left"; "unread"; "here"]]) "t"
  = MkRead [["a"; "b"]; [""; "\N"]]
           (Returned [raw_line ["left"; "unread"; "here"]]).
Proof.
  apply (iter_copy_rows_block "t" _ t_header 2
           [raw_line ["a"; "b"]; raw_line [""; "\N"]] t_end).
  - repeat constructor.
  - vm_compute. reflexivity.
  - repeat constructor.
  - vm_compute. reflexivity.
  - repeat constructor.
Defined.

(** C1, as stated, fails: a line of the block with another field count stops
    the reader, and the rows after it up to the terminator are not yielded. *)
Lemma iter_copy_rows_short_row_cuts_block :
  let rows := [raw_line ["a"; "b"]; raw_line ["c"]; raw_line ["d"; "e"]] in
  let file := t_header :: rows ++ [t_end; raw_line ["x"; "y"]] in
  is_header "t" t_header = Some 2%nat
  /\ Forall (fun raw => is_terminator raw = false) rows
  /\ is_terminator t_end = true
  /\ iter_copy_rows file "t" = MkRead [["a"; "b"]] (Died (ColumnCount 1 2))
  /\ yielded (iter_copy_rows file "t") <> map row_of rows.
Proof.
  cbv zeta. split; [vm_compute; reflexivity|].
  split; [repeat constructor|].
  split; [vm_compute; reflexivity|].
  split; [vm_compute; reflexivity|].
  vm_compute. discriminate.
Qed.

(** C6: a reader consumed to the end dies with the block-not-found error when
    no line of the file is a header for the requested table; with the
    did-not-terminate error when the header was met and the end of the file
    is reached with no terminator; and with the column-count error, yielding
    nothing from that line on, at a data row whose tab-separated field count
    is not the number of comma-separated columns the header declares.  With
    the header met and no terminator after it the reader never returns: one
    of these last two errors stops it. *)
Theorem iter_copy_rows_failures (table : string) (file : list string) :
  (Forall (fun raw => is_header table raw = None) file ->
   iter_copy_rows file table = MkRead [] (Died BlockNotFound))
  /\ (forall pre hdr n rows,
         file = pre ++ hdr :: rows ->
         Forall (fun raw => is_header table raw = None) pre ->
         is_header table hdr = Some n ->
         Forall (fun raw => is_terminator raw = false) rows ->
         Forall (fun raw => List.length (row_of raw) = n) rows ->
         iter_copy_rows file table
         = MkRead (map row_of rows) (Died BlockNotTerminated))
  /\ (forall pre hdr n rows bad rest,
         file = pre ++ hdr :: rows ++ bad :: rest ->
         Forall (fun raw => is_header table raw = None) pre ->
         is_header table hdr = Some n ->
         Forall (fun raw => is_terminator raw = false) rows ->
         Forall (fun raw => List.length (row_of raw) = n) rows ->
         is_terminator bad = false ->
         List.length (row_of bad) <> n ->
         iter_copy_rows file table
         = MkRead (map row_of rows)
                  (Died (ColumnCount (List.length (row_of bad)) n)))
  /\ (forall pre hdr n rows,
         file = pre ++ hdr :: rows ->
         Forall (fun raw => is_header table raw = None) pre ->
         is_header table hdr = Some n ->
         Forall (fun raw => is_terminator raw = false) rows ->
         outcome (iter_copy_rows file table) = Died BlockNotTerminated
         \/ exists got,
             got <> n
             /\ outcome (iter_copy_rows file table)
                = Died (ColumnCount got n)).
Proof.
  unfold iter_copy_rows. repeat split.
  - intros Hnone.
    rewrite <- (app_nil_r file).
    rewrite (copy_rows_skip table None file [] Hnone). reflexivity.
  - intros pre hdr n rows -> Hpre Hhdr Hrows Hn.
    rewrite (copy_rows_skip table None pre _ Hpre).
    rewrite (copy_rows_enter table None hdr n _ Hhdr).
    rewrite <- (app_nil_r rows) at 1.
    rewrite (copy_rows_data table n rows [] Hrows Hn).
    simpl. rewrite app_nil_r. reflexivity.
  - intros pre hdr n rows bad rest -> Hpre Hhdr Hrows Hn Hbad Hlen.
    rewrite (copy_rows_skip table None pre _ Hpre).
    rewrite (copy_rows_enter table None hdr n _ Hhdr).
    rewrite (copy_rows_data table n rows _ Hrows Hn).
    rewrite (copy_rows_bad_row table n bad rest Hbad Hlen).
    simpl. rewrite app_nil_r. reflexivity.
  - intros pre hdr n rows -> Hpre Hhdr Hrows.
    rewrite (copy_rows_skip table None pre _ Hpre).
    rewrite (copy_rows_enter table None hdr n _ Hhdr).
    apply copy_rows_unterminated. exact Hrows.
Qed.

Lemma iter_copy_rows_failures_witness :
  iter_copy_rows [raw_line ["-- dump"]; t_header; t_end] "u"
  = MkRead [] (Died BlockNotFound)
  /\ iter_copy_rows [raw_line ["-- dump"]; t_header; raw_line ["a"; "b"]] "t"
     = MkRead [["a"; "b"]] (Died BlockNotTerminated)
  /\ iter_copy_rows
       [t_header; raw_line ["a"; "b"]; raw_line ["c"; "d"; "e"]; t_end] "t"
     = MkRead [["a"; "b"]] (Died (ColumnCount 3 2)).
Proof.
  split; [|split].
  - apply (proj1 (iter_copy_rows_failures "u" _)).
    repeat constructor.
  - apply (proj1 (proj2 (iter_copy_rows_failures "t" _))
             [raw_line ["-- dump"]] t_header 2 [raw_line ["a"; "b"]]).
    + reflexivity.
    + repeat constructor.
    + vm_compute. reflexivity.
    + repeat constructor.
    + repeat constructor.
  - apply (proj1 (proj2 (proj2 (iter_copy_rows_failures "t" _)))
             [] t_header 2 [raw_line ["a"; "b"]]
             (raw_line ["c"; "d"; "e"]) [t_end]).
    + reflexivity.
    + constructor.
    + vm_compute. reflexivity.
    + repeat constructor.
    + repeat constructor.
    + vm_compute. reflexivity.
    + vm_compute. discriminate.
Defined.

(** ** Decoding and normalising text *)

(** C8, as stated, fails: with newlines not kept the result is not hello,
    backslash, n, world. *)
Lemma normalize_text_keeps_a_space :
  normalize_text hello_world false <> "hello\nworld"
  /\ normalize_text hello_world true <> ("hello" ++ Str.nl ++ "world")%string.
Proof.
  split; vm_compute; discriminate.
Qed.

(** C8, as amended: on hello, three spaces, three newlines, world, two spaces,
    [normalize_text] returns hello, one space, the two characters backslash
    and n, world when newlines are not kept, and hello, one space, one
    newline, world when they are kept; the white space at both ends is
    trimmed in both cases. *)
Theorem normalize_text_hello_world :
  normalize_text hello_world false = "hello \nworld"
  /\ normalize_text hello_world true = ("hello " ++ Str.nl ++ "world")%string.
Proof.
  split; vm_compute; reflexivity.
Qed.

(** C10: the replacements of [decode_copy_text] run one after the other,
    the doubled backslash first, so the raw field backslash, backslash, t,
    which is what COPY writes for the text backslash, t, decodes to the
    single tab character: decoding after escaping is not the identity. *)
Theorem decode_copy_text_not_inverse :
  copy_escape "\t" = "\\t"
  /\ Str.replace "\\" "\" "\\t" = "\t"
  /\ decode_copy_text "\\t" = Str.tab
  /\ decode_copy_text (copy_escape "\t") <> "\t".
Proof.
  repeat split; try (vm_compute; reflexivity).
  vm_compute. discriminate.
Qed.

(** ** The identity resolver *)

Lemma item_nth (row : list string) (i : nat) :
  (i < List.length row)%nat -> item row i = Ok (nth i row "").
Proof.
  intros H. unfold item.
  destruct (nth_error row i) as [v|] eqn:E.
  - rewrite (nth_error_nth row i "" E). reflexivity.
  - apply nth_error_None in E. lia.
Qed.

Lemma int_is_int (s : string) :
  is_int s = true -> int s = Ok (int_or_zero s).
Proof.
  unfold is_int, int, int_or_zero.
  destruct (PyInt.parse s); [reflexivity|discriminate].
Qed.

Lemma for_each_match_business (business_name : string)
      (rows : list (list string)) (acc : list Business.t) :
  forallb readable_business rows = true ->
  for_each (match_business business_name) rows acc
  = Ok (acc ++ map business_of (filter (named business_name) rows)).
Proof.
  revert acc. induction rows as [|row rows IH]; intros acc Hok.
  - simpl. rewrite app_nil_r. reflexivity.
  - simpl in Hok. apply andb_true_iff in Hok as [Hrow Hrows].
    unfold readable_business in Hrow.
    apply andb_true_iff in Hrow as [Hlen Hint].
    apply Nat.leb_le in Hlen.
    cbn [for_each filter]. unfold match_business at 1.
    rewrite (item_nth row 0) by lia. cbn [bind].
    rewrite (int_is_int _ Hint). cbn [bind].
    rewrite (item_nth row 2) by lia. cbn [bind].
    unfold named at 1. unfold business_name_of at 1.
    destruct (String.eqb (decode_copy_text (nth 2 row "")) business_name);
      cbn [bind]; rewrite (IH _ Hrows); [|reflexivity].
    cbn [map]. rewrite <- app_assoc. reflexivity.
Qed.

Lemma for_each_close_match (business_name : string)
      (rows : list (list string)) (acc : list string) :
  forallb readable_business rows = true ->
  for_each (close_match business_name) rows acc
  = Ok (acc ++ filter (resembles business_name) (map business_name_of rows)).
Proof.
  revert acc. induction rows as [|row rows IH]; intros acc Hok.
  - simpl. rewrite app_nil_r. reflexivity.
  - simpl in Hok. apply andb_true_iff in Hok as [Hrow Hrows].
    unfold readable_business in Hrow.
    apply andb_true_iff in Hrow as [Hlen _].
    apply Nat.leb_le in Hlen.
    cbn [for_each map filter]. unfold close_match at 1.
    rewrite (item_nth row 2) by lia. cbn [bind].
    unfold resembles at 1. unfold business_name_of at 1.
    destruct (Str.contains (Str.lower business_name)
                           (Str.lower (decode_copy_text (nth 2 row ""))));
      cbn [bind]; rewrite (IH _ Hrows); [|reflexivity].
    rewrite <- app_assoc. reflexivity.
Qed.

(** C3: over a readable businesses block, [find_business_id_by_name] returns
    the business, its id and its decoded name, of the one row whose decoded
    name is the supplied name, compared as whole strings with case; with no
    such row it dies with the first candidates, eight at most, among the
    decoded names that contain the supplied name when case is ignored; with
    several such rows it dies with the list of their ids. *)
Theorem find_business_id_by_name_cases (file : list string)
        (name : string) (rows : list (list string)) (rest : list string) :
  iter_copy_rows file "business_business" = MkRead rows (Returned rest) ->
  forallb readable_business rows = true ->
  (forall row,
      filter (named name) rows = [row] ->
      find_business_id_by_name file name
      = Ok (Business.mk (int_or_zero (nth 0 row "")) name))
  /\ (filter (named name) rows = [] ->
      exists candidates,
        find_business_id_by_name file name
        = die (BusinessNotFound name candidates)
        /\ candidates
           = firstn 8 (filter (resembles name) (map business_name_of rows))
        /\ (List.length candidates <= 8)%nat)
  /\ ((2 <= List.length (filter (named name) rows))%nat ->
      find_business_id_by_name file name
      = die (BusinessAmbiguous name
               (map (fun row => int_or_zero (nth 0 row ""))
                    (filter (named name) rows)))).
Proof.
  intros Hread Hok. unfold find_business_id_by_name, for_rows.
  rewrite Hread. cbn [yielded outcome].
  rewrite (for_each_match_business name rows [] Hok).
  rewrite (for_each_close_match name rows [] Hok).
  cbn [bind app]. repeat split.
  - intros row Hone. rewrite Hone. cbn [map].
    assert (Hin : In row (filter (named name) rows))
      by (rewrite Hone; left; reflexivity).
    apply filter_In in Hin as [_ Hnamed].
    unfold named in Hnamed. apply String.eqb_eq in Hnamed.
    unfold business_of. rewrite Hnamed. reflexivity.
  - intros Hnone. rewrite Hnone. cbn [map bind].
    eexists. split; [reflexivity|]. split; [reflexivity|].
    apply firstn_le_length.
  - intros Hmany.
    destruct (filter (named name) rows) as [|r1 [|r2 more]];
      cbn [List.length] in Hmany; try lia.
    cbn [map bind]. unfold die. repeat f_equal.
    rewrite map_map. reflexivity.
Qed.

Lemma find_business_id_by_name_cases_witness :
  find_business_id_by_name sample_businesses "Acme Foods"
  = Ok (Business.mk 7 "Acme Foods")
  /\ (exists candidates,
         find_business_id_by_name sample_businesses "acme"
         = die (BusinessNotFound "acme" candidates)
         /\ candidates = ["Acme Foods"; "ACME foods srl"]
         /\ (List.length candidates <= 8)%nat)
  /\ find_business_id_by_name sample_businesses "Twin"
     = die (BusinessAmbiguous "Twin" [12; 13]%Z).
Proof.
  pose (rows := yielded (iter_copy_rows sample_businesses "business_business")).
  assert (Hread : iter_copy_rows sample_businesses "business_business"
                  = MkRead rows (Returned [])) by (vm_compute; reflexivity).
  assert (Hok : forallb readable_business rows = true)
    by (vm_compute; reflexivity).
  split; [|split].
  - apply (proj1 (find_business_id_by_name_cases
                    sample_businesses "Acme Foods" rows [] Hread Hok)
             (row_of (business_line "7" "Acme Foods"))).
    vm_compute. reflexivity.
  - apply (proj1 (proj2 (find_business_id_by_name_cases
                           sample_businesses "acme" rows [] Hread Hok))).
    vm_compute. reflexivity.
  - apply (proj2 (proj2 (find_business_id_by_name_cases
                           sample_businesses "Twin" rows [] Hread Hok))).
    vm_compute. lia.
Defined.

Lemma for_each_keep_location (business_id : Z)
      (rows : list (list string)) (acc : list Location.t) :
  forallb readable_location rows = true ->
  for_each (keep_location business_id) rows acc
  = Ok (acc ++ map location_of (filter (owned_by business_id) rows)).
Proof.
  revert acc. induction rows as [|row rows IH]; intros acc Hok.
  - simpl. rewrite app_nil_r. reflexivity.
  - simpl in Hok. apply andb_true_iff in Hok as [Hrow Hrows].
    unfold readable_location in Hrow.
    apply andb_true_iff in Hrow as [Hrow Hint3].
    apply andb_true_iff in Hrow as [Hlen Hint0].
    apply Nat.leb_le in Hlen.
    cbn [for_each filter]. unfold keep_location at 1.
    rewrite (item_nth row 0) by lia. cbn [bind].
    rewrite (int_is_int _ Hint0). cbn [bind].
    rewrite (item_nth row 2) by lia. cbn [bind].
    rewrite (item_nth row 3) by lia. cbn [bind].
    rewrite (int_is_int _ Hint3). cbn [bind].
    unfold owned_by at 1.
    destruct (int_or_zero (nth 3 row "") =? business_id)%Z;
      cbn [bind]; rewrite (IH _ Hrows); [|reflexivity].
    cbn [map]. rewrite <- app_assoc. reflexivity.
Qed.

Lemma insert_by_id_perm (l : Location.t) (s : list Location.t) :
  Permutation (insert_by_id l s) (l :: s).
Proof.
  induction s as [|x s IH]; simpl; [reflexivity|].
  destruct (Location.id l <=? Location.id x)%Z; [reflexivity|].
  rewrite IH. apply perm_swap.
Qed.

Lemma sorted_by_id_perm (locs : list Location.t) :
  Permutation (sorted_by_id locs) locs.
Proof.
  induction locs as [|l locs IH]; simpl; [reflexivity|].
  rewrite insert_by_id_perm. constructor. exact IH.
Qed.

Lemma insert_by_id_hd (l x : Location.t) (s : list Location.t) :
  id_le x l -> HdRel id_le x s -> HdRel id_le x (insert_by_id l s).
Proof.
  intros Hxl Hhd. destruct s as [|y s]; simpl; [constructor; exact Hxl|].
  destruct (Location.id l <=? Location.id y)%Z.
  - constructor. exact Hxl.
  - constructor. inversion Hhd; assumption.
Qed.

Lemma insert_by_id_sorted (l : Location.t) (s : list Location.t) :
  Sorted id_le s -> Sorted id_le (insert_by_id l s).
Proof.
  induction 1 as [|x s Hs IH Hhd]; simpl.
  - repeat constructor.
  - destruct (Location.id l <=? Location.id x)%Z eqn:E.
    + apply Z.leb_le in E. repeat constructor; assumption.
    + apply Z.leb_gt in E. constructor; [exact IH|].
      apply insert_by_id_hd; [unfold id_le; lia|exact Hhd].
Qed.

Lemma sorted_by_id_sorted (locs : list Location.t) :
  Sorted id_le (sorted_by_id locs).
Proof.
  induction locs as [|l locs IH]; simpl; [constructor|].
  apply insert_by_id_sorted. exact IH.
Qed.

(** C7: over a readable locations block, [load_locations_for_business]
    returns the records of exactly the rows whose business id, at position
    3, is the target, each once, in ascending order of location id; and
    [main] dies, opening no output, when that list is empty. *)
Theorem load_locations_for_business_owned :
  (forall file business_id rows rest,
      iter_copy_rows file "business_location" = MkRead rows (Returned rest) ->
      forallb readable_location rows = true ->
      exists locs,
        load_locations_for_business file business_id = Ok locs
        /\ Permutation locs
             (map location_of (filter (owned_by business_id) rows))
        /\ Sorted id_le locs)
  /\ (forall a bf lf rf biz,
         find_business_id_by_name bf (business_name a) = Ok biz ->
         load_locations_for_business lf (Business.id biz) = Ok [] ->
         main a (MkInputs (Some bf) (Some lf) (Some rf))
         = MkRun [] []
             (die (NoLocations (Business.id biz) (Business.name biz)))).
Proof.
  split.
  - intros file business_id rows rest Hread Hok.
    unfold load_locations_for_business, for_rows.
    rewrite Hread. cbn [yielded outcome].
    rewrite (for_each_keep_location business_id rows [] Hok).
    cbn [bind app]. eexists. split; [reflexivity|]. split.
    + apply sorted_by_id_perm.
    + apply sorted_by_id_sorted.
  - intros a bf lf rf biz Hbiz Hlocs. unfold main. cbn.
    rewrite Hbiz, Hlocs. reflexivity.
Qed.

Lemma load_locations_for_business_owned_witness :
  (exists locs,
      load_locations_for_business sample_locations 7 = Ok locs
      /\ Permutation locs [Location.mk 9 "Uptown" 7; Location.mk 3 "Downtown" 7]
      /\ Sorted id_le locs)
  /\ main (MkArgs "Other" false false 0)
          (MkInputs (Some sample_businesses) (Some sample_locations) (Some []))
     = MkRun [] [] (die (NoLocations 11 "Other")).
Proof.
  split.
  - apply (proj1 load_locations_for_business_owned sample_locations 7%Z
             (yielded (iter_copy_rows sample_locations "business_location"))
             []).
    + vm_compute. reflexivity.
    + vm_compute. reflexivity.
  - apply (proj2 load_locations_for_business_owned
             (MkArgs "Other" false false 0) sample_businesses sample_locations
             [] (Business.mk 11 "Other")).
    + vm_compute. reflexivity.
    + vm_compute. reflexivity.
Defined.

Example load_locations_sample :
  load_locations_for_business sample_locations 7
  = Ok [Location.mk 3 "Downtown" 7; Location.mk 9 "Uptown" 7].
Proof. vm_compute. reflexivity. Qed.

(** ** Dictionaries and indexed updates *)

Module DictFacts.
Section Facts.
Context {V : Type}.
Implicit Types (d : Dict.t V) (k : Z) (v : V).

Lemma get_set_same d k v : Dict.get k (Dict.set k v d) = Some v.
Proof.
  induction d as [|[k' v'] d IH]; simpl.
  - rewrite Z.eqb_refl. reflexivity.
  - destruct (k' =? k)%Z eqn:E; simpl; rewrite E; [reflexivity|exact IH].
Qed.

Lemma get_set_other d k k' v :
  k <> k' -> Dict.get k' (Dict.set k v d) = Dict.get k' d.
Proof.
  intros Hne. induction d as [|[k0 v0] d IH]; simpl.
  - destruct (k =? k')%Z eqn:E; [apply Z.eqb_eq in E; contradiction|].
    reflexivity.
  - destruct (k0 =? k)%Z eqn:E; simpl.
    + apply Z.eqb_eq in E. subst k0.
      destruct (k =? k')%Z eqn:E'; [apply Z.eqb_eq in E'; contradiction|].
      reflexivity.
    + rewrite IH. reflexivity.
Qed.

Lemma mem_in_keys d k : Dict.mem k d = true <-> In k (Dict.keys d).
Proof.
  unfold Dict.mem. induction d as [|[k' v'] d IH]; simpl.
  - split; [discriminate|tauto].
  - destruct (k' =? k)%Z eqn:E.
    + apply Z.eqb_eq in E. split; auto.
    + apply Z.eqb_neq in E. rewrite IH. split; [auto|]. intros [H|H]; tauto.
Qed.

Lemma mem_get d k : Dict.mem k d = true -> exists v, Dict.get k d = Some v.
Proof.
  unfold Dict.mem. destruct (Dict.get k d) as [v|]; [eauto|discriminate].
Qed.

Lemma keys_set_present d k v :
  In k (Dict.keys d) -> Dict.keys (Dict.set k v d) = Dict.keys d.
Proof.
  induction d as [|[k' v'] d IH]; simpl; [tauto|].
  intros Hin. destruct (k' =? k)%Z eqn:E; simpl; [reflexivity|].
  apply Z.eqb_neq in E. f_equal. apply IH. destruct Hin; tauto.
Qed.

Lemma set_absent d k v :
  ~ In k (Dict.keys d) -> Dict.set k v d = d ++ [(k, v)].
Proof.
  induction d as [|[k' v'] d IH]; simpl; [reflexivity|].
  intros Hout. destruct (k' =? k)%Z eqn:E.
  - apply Z.eqb_eq in E. tauto.
  - f_equal. apply IH. tauto.
Qed.
End Facts.

Lemma get_same_keys {V W : Type} (d : Dict.t V) (e : Dict.t W) (k : Z) :
  Dict.keys d = Dict.keys e -> Dict.mem k d = Dict.mem k e.
Proof.
  intros Hk. destruct (Dict.mem k e) eqn:E.
  - apply mem_in_keys. rewrite Hk. apply mem_in_keys. exact E.
  - destruct (Dict.mem k d) eqn:E'; [|reflexivity].
    apply mem_in_keys in E'. rewrite Hk in E'. apply mem_in_keys in E'.
    congruence.
Qed.
End DictFacts.

Section Update.
Context {A : Type}.
Implicit Types (g : A -> A) (l : list A).

Lemma update_length i g l : List.length (update i g l) = List.length l.
Proof.
  revert i. induction l as [|x l IH]; intros [|i]; simpl; auto.
Qed.

Lemma update_app_here g pre x post :
  update (List.length pre) g (pre ++ x :: post) = pre ++ g x :: post.
Proof.
  induction pre as [|y pre IH]; simpl; [reflexivity|]. rewrite IH.
  reflexivity.
Qed.

Lemma update_split i g l x :
  nth_error l i = Some x ->
  exists pre post,
    l = pre ++ x :: post /\ List.length pre = i
    /\ update i g l = pre ++ g x :: post.
Proof.
  intros H. apply nth_error_split in H as (pre & post & -> & Hlen).
  exists pre, post. split; [reflexivity|]. split; [exact Hlen|].
  subst i. apply update_app_here.
Qed.

Lemma update_other i j g l :
  i <> j -> nth_error (update i g l) j = nth_error l j.
Proof.
  revert i j. induction l as [|x l IH]; intros [|i] [|j] Hne; simpl; auto.
  contradiction.
Qed.

Lemma update_same i g l x :
  nth_error l i = Some x -> nth_error (update i g l) i = Some (g x).
Proof.
  revert i. induction l as [|x' l IH]; intros [|i]; simpl; try discriminate.
  - intros [= ->]. reflexivity.
  - apply IH.
Qed.
End Update.

Lemma keys_set_in {V : Type} (d : Dict.t V) (k k' : Z) (v : V) :
  In k' (Dict.keys (Dict.set k v d)) <-> k' = k \/ In k' (Dict.keys d).
Proof.
  induction d as [|[k0 v0] d IH]; simpl.
  - intuition.
  - destruct (k0 =? k)%Z eqn:E; simpl.
    + apply Z.eqb_eq in E. subst. intuition.
    + rewrite IH. intuition.
Qed.

(** ** Opening the writers *)

Lemma open_writers_from_files (locs : list Location.t)
      (fs : list out_file) (w : Dict.t nat) :
  fst (open_writers_from locs fs w) = fs ++ map fresh_file locs.
Proof.
  revert fs w. induction locs as [|loc locs IH]; intros fs w; simpl.
  - rewrite app_nil_r. reflexivity.
  - rewrite IH. rewrite <- app_assoc. reflexivity.
Qed.

Lemma open_writers_from_get (locs : list Location.t)
      (fs : list out_file) (w : Dict.t nat) (k : Z) (h : nat) :
  Dict.get k (snd (open_writers_from locs fs w)) = Some h ->
  Dict.get k w = Some h
  \/ ((List.length fs <= h)%nat
      /\ exists l, nth_error locs (h - List.length fs) = Some l
                   /\ Location.id l = k).
Proof.
  revert fs w. induction locs as [|loc locs IH]; intros fs w; simpl.
  - auto.
  - intros H. apply IH in H as [H|(Hle & l & Hnth & Hid)].
    + destruct (Z.eq_dec (Location.id loc) k) as [<-|Hne].
      * rewrite DictFacts.get_set_same in H. injection H as <-.
        right. split; [lia|]. exists loc. rewrite Nat.sub_diag. auto.
      * rewrite DictFacts.get_set_other in H by exact Hne. auto.
    + rewrite length_app in Hle. simpl in Hle.
      rewrite length_app in Hnth. simpl in Hnth.
      right. split; [lia|]. exists l. split; [|exact Hid].
      replace (h - List.length fs)%nat
        with (S (h - (List.length fs + 1)))%nat by lia.
      exact Hnth.
Qed.

Lemma open_writers_from_has (locs : list Location.t)
      (fs : list out_file) (w : Dict.t nat) (k : Z) :
  In k (map Location.id locs) \/ In k (Dict.keys w) ->
  exists h, Dict.get k (snd (open_writers_from locs fs w)) = Some h.
Proof.
  revert fs w. induction locs as [|loc locs IH]; intros fs w; simpl.
  - intros [[]|H]. apply DictFacts.mem_get, DictFacts.mem_in_keys, H.
  - intros H. apply IH. rewrite keys_set_in. intuition.
Qed.

Lemma make_loc_by_id_keys (locs : list Location.t) (k : Z) :
  In k (Dict.keys (make_loc_by_id locs)) <-> In k (map Location.id locs).
Proof.
  unfold make_loc_by_id.
  assert (G : forall d,
             In k (Dict.keys
                     (fold_left (fun d l => Dict.set (Location.id l) l d)
                                locs d))
             <-> In k (Dict.keys d) \/ In k (map Location.id locs)).
  { induction locs as [|loc locs IH]; intros d; simpl.
    - intuition.
    - rewrite IH, keys_set_in. intuition. }
  rewrite G. simpl. intuition.
Qed.

(** The file of a known location id: its number is in the dictionary of
    writers, and it is the file that was opened for a location with that
    id. *)
Lemma writer_of_known_id (locations : list Location.t) (st : scan_state)
      (lid : Z) :
  map opened_for (files st) = locations ->
  In lid (Dict.keys (make_loc_by_id locations)) ->
  exists h f,
    Dict.get lid (snd (open_writers locations)) = Some h
    /\ nth_error (files st) h = Some f
    /\ Location.id (opened_for f) = lid.
Proof.
  intros Hfiles Hin. apply make_loc_by_id_keys in Hin.
  destruct (open_writers_from_has locations [] [] lid (or_introl Hin))
    as [h Hh].
  exists h. pose proof (open_writers_from_get _ _ _ _ _ Hh) as [H|(_ & l & Hl & Hid)].
  - discriminate.
  - simpl in Hl. rewrite Nat.sub_0_r in Hl. rewrite <- Hfiles in Hl.
    rewrite nth_error_map in Hl.
    destruct (nth_error (files st) h) as [f|]; [|discriminate].
    injection Hl as <-. exists f. auto.
Qed.

(** ** Counting *)

Lemma sum_from (zs : list Z) (a : Z) :
  fold_left Z.add zs a = (a + sum zs)%Z.
Proof.
  unfold sum. revert a. induction zs as [|z zs IH]; intros a; simpl.
  - lia.
  - rewrite (IH (a + z)%Z), (IH z). lia.
Qed.

Lemma sum_cons (z : Z) (zs : list Z) : sum (z :: zs) = (z + sum zs)%Z.
Proof. unfold sum at 1. simpl. apply sum_from. Qed.

Lemma sum_values_set (d : Dict.t Z) (k c v : Z) :
  Dict.get k d = Some c ->
  sum (Dict.values (Dict.set k v d)) = (sum (Dict.values d) - c + v)%Z.
Proof.
  induction d as [|[k' v'] d IH]; simpl; [discriminate|].
  destruct (k' =? k)%Z; simpl.
  - intros [= ->]. rewrite !sum_cons. lia.
  - intros H. unfold Dict.values in *. rewrite !sum_cons, (IH H). lia.
Qed.

Lemma data_rows_writerow (row : csv_row) (f : out_file) :
  still_open f -> data_rows (writerow row f) = data_rows f ++ [row].
Proof.
  intros (_ & Hfl & rows & Hp). unfold data_rows, writerow. simpl.
  rewrite Hfl, Hp. reflexivity.
Qed.

Lemma still_open_writerow (row : csv_row) (f : out_file) :
  still_open f -> still_open (writerow row f).
Proof.
  intros (Hc & Hfl & rows & Hp). unfold still_open, writerow. simpl.
  rewrite Hp. split; [exact Hc|]. split; [exact Hfl|].
  exists (rows ++ [row]). reflexivity.
Qed.

Lemma exported_app (pre post : list out_file) :
  exported (pre ++ post) = (exported pre + exported post)%Z.
Proof.
  unfold exported. rewrite map_app, concat_app, length_app. lia.
Qed.

Lemma exported_cons (f : out_file) (fs : list out_file) :
  exported (f :: fs) = (Z.of_nat (List.length (data_rows f)) + exported fs)%Z.
Proof.
  unfold exported. simpl. rewrite length_app. lia.
Qed.

Lemma exported_writerow (row : csv_row) (fs : list out_file) (h : nat)
      (f : out_file) :
  nth_error fs h = Some f -> still_open f ->
  exported (update h (writerow row) fs) = (exported fs + 1)%Z.
Proof.
  intros Hnth Hopen.
  destruct (update_split h (writerow row) fs f Hnth)
    as (pre & post & -> & _ & ->).
  rewrite !exported_app, !exported_cons, (data_rows_writerow row f Hopen).
  rewrite length_app. simpl. lia.
Qed.

(** ** One reviews row *)

Lemma parse_not_null (s : string) (z : Z) :
  PyInt.parse s = Some z -> String.eqb s "\N" = false.
Proof.
  intros H. destruct (String.eqb_spec s "\N") as [->|]; [|reflexivity].
  vm_compute in H. discriminate.
Qed.

Section Row.
Variable locations : list Location.t.
Variable business_id : Z.
Variables normalize_whitespace keep_newlines : bool.
Variable progress_every : Z.

Let loc_by_id := make_loc_by_id locations.
Let writers := snd (open_writers locations).
Let body := export_row business_id loc_by_id writers normalize_whitespace
                       keep_newlines progress_every.

(** A row of the target business and of a known location is written to
    the file of that location and counted for it. *)
Lemma export_row_accepts (parts : list string) (st : scan_state) (lid : Z) :
  scanning locations st ->
  PyInt.parse (nth 11 parts "") = Some business_id ->
  PyInt.parse (nth 12 parts "") = Some lid ->
  In lid (Dict.keys loc_by_id) ->
  exists loc h f c st',
    Dict.get lid loc_by_id = Some loc
    /\ Dict.get lid writers = Some h
    /\ nth_error (files st) h = Some f
    /\ Location.id (opened_for f) = lid
    /\ Dict.get lid (counts st) = Some c
    /\ body parts st = Continue st'
    /\ counts st' = Dict.set lid (c + 1)%Z (counts st)
    /\ files st'
       = update h (writerow (review_row normalize_whitespace keep_newlines
                                        lid loc parts)) (files st)
    /\ scanning locations st'.
Proof.
  intros Hst H11 H12 Hin.
  pose proof (proj2 (DictFacts.mem_in_keys loc_by_id lid) Hin) as Hmem.
  destruct (DictFacts.mem_get _ _ Hmem) as [loc Hloc].
  destruct (writer_of_known_id locations st lid (scanning_files _ _ Hst) Hin)
    as (h & f & Hh & Hf & Hid).
  assert (Hcmem : Dict.mem lid (counts st) = true).
  { rewrite (DictFacts.get_same_keys (counts st) loc_by_id lid
               (scanning_keys _ _ Hst)). exact Hmem. }
  destruct (DictFacts.mem_get _ _ Hcmem) as [c Hc].
  exists loc, h, f, c. eexists.
  repeat (split; [eassumption|]).
  unfold body, export_row.
  rewrite (parse_not_null _ _ H11), (parse_not_null _ _ H12).
  unfold int. rewrite H11, H12, Z.eqb_refl, Hmem. cbn [negb].
  unfold writers in *. rewrite Hloc, Hh, Hc.
  split; [reflexivity|]. cbn [counts files].
  split; [reflexivity|]. split; [reflexivity|].
  constructor; cbn [counts files].
  - rewrite <- (scanning_files _ _ Hst).
    destruct (update_split h
                (writerow (review_row normalize_whitespace keep_newlines
                                      lid loc parts)) (files st) f Hf)
      as (pre & post & -> & _ & ->).
    rewrite !map_app. reflexivity.
  - rewrite <- (scanning_keys _ _ Hst). apply DictFacts.keys_set_present.
    apply DictFacts.mem_in_keys. exact Hcmem.
  - pose proof (scanning_open _ _ Hst) as Hopen.
    destruct (update_split h
                (writerow (review_row normalize_whitespace keep_newlines
                                      lid loc parts)) (files st) f Hf)
      as (pre & post & Hsplit & _ & ->).
    rewrite Hsplit in Hopen. apply Forall_app in Hopen as [Hpre Hpost].
    inversion Hpost as [|? ? Hfo Hpost']; subst.
    apply Forall_app. split; [exact Hpre|]. constructor; [|exact Hpost'].
    apply still_open_writerow. exact Hfo.
  - rewrite (sum_values_set _ _ _ _ Hc).
    rewrite (exported_writerow _ _ _ _ Hf).
    + rewrite (scanning_total _ _ Hst). lia.
    + pose proof (scanning_open _ _ Hst) as Hopen.
      rewrite Forall_forall in Hopen. apply Hopen.
      eapply nth_error_In. exact Hf.
Qed.

(** The three ways the body ends: the row is left out and the state is
    untouched; a foreign key is not an integer; the row is written. *)
Lemma export_row_cases (parts : list string) (st : scan_state) :
  scanning locations st ->
  body parts st = Continue st
  \/ body parts st = Stop ValueError
  \/ exists lid,
      PyInt.parse (nth 11 parts "") = Some business_id
      /\ PyInt.parse (nth 12 parts "") = Some lid
      /\ In lid (Dict.keys loc_by_id).
Proof.
  intros Hst. unfold body, export_row.
  destruct (String.eqb (nth 11 parts "") "\N"); [auto|].
  unfold int.
  destruct (PyInt.parse (nth 11 parts "")) as [b|]; [|auto].
  destruct (Z.eqb_spec b business_id) as [->|]; cbn [negb]; [|auto].
  destruct (String.eqb (nth 12 parts "") "\N"); [auto|].
  destruct (PyInt.parse (nth 12 parts "")) as [lid|]; [|auto].
  destruct (Dict.mem lid loc_by_id) eqn:Hmem; cbn [negb]; [|auto].
  right. right. exists lid. repeat split.
  apply DictFacts.mem_in_keys. exact Hmem.
Qed.

Lemma export_row_scanning (parts : list string) (st st' : scan_state) :
  scanning locations st -> body parts st = Continue st' ->
  scanning locations st'.
Proof.
  intros Hst Hbody.
  destruct (export_row_cases parts st Hst) as [H|[H|(lid & H11 & H12 & Hin)]].
  - rewrite H in Hbody. injection Hbody as <-. exact Hst.
  - rewrite H in Hbody. discriminate.
  - destruct (export_row_accepts parts st lid Hst H11 H12 Hin)
      as (loc & h & f & c & st2 & _ & _ & _ & _ & _ & Hb & _ & _ & Hst2).
    rewrite Hb in Hbody. injection Hbody as <-. exact Hst2.
Qed.

(** A row the conditions leave out passes with the state untouched. *)
Lemma export_row_left_out (parts : list string) (st : scan_state) :
  null_or_int (nth 11 parts "") = true ->
  left_out business_id (Dict.keys loc_by_id) parts ->
  body parts st = Continue st.
Proof.
  intros Htyped Hout. unfold body, export_row.
  destruct (String.eqb_spec (nth 11 parts "") "\N") as [E11|N11];
    [reflexivity|].
  unfold null_or_int in Htyped. apply orb_true_iff in Htyped as [Hn|Hi].
  { apply String.eqb_eq in Hn. contradiction. }
  unfold is_int in Hi. unfold int.
  destruct (PyInt.parse (nth 11 parts "")) as [b|] eqn:P11; [|discriminate].
  destruct (Z.eqb_spec b business_id) as [->|Hb]; cbn [negb]; [|reflexivity].
  destruct (String.eqb_spec (nth 12 parts "") "\N") as [E12|N12];
    [reflexivity|].
  destruct Hout as [H|[(b & Hb & Hne)|[H|(l & Hl & Hnot)]]].
  - contradiction.
  - congruence.
  - contradiction.
  - rewrite Hl.
    destruct (Dict.mem l loc_by_id) eqn:Hmem; cbn [negb]; [|reflexivity].
    apply DictFacts.mem_in_keys in Hmem. contradiction.
Qed.
End Row.

Lemma start_scanning (locations : list Location.t) :
  scanning locations (start_state locations).
Proof.
  unfold start_state, open_writers. rewrite open_writers_from_files.
  cbn [app]. constructor; cbn [counts files].
  - rewrite map_map. cbn [fresh_file opened_for]. apply map_id.
  - unfold zero_counts, Dict.keys. rewrite map_map. cbn [fst]. apply map_id.
  - apply Forall_forall. intros f Hin. apply in_map_iff in Hin as (l & <- & _).
    unfold still_open, fresh_file. cbn. eauto.
  - unfold zero_counts, Dict.values. rewrite map_map. cbn [snd].
    generalize (Dict.keys (make_loc_by_id locations)) as ks.
    assert (E : exported (map fresh_file locations) = 0%Z).
    { induction locations as [|l ls IH]; [reflexivity|].
      cbn [map]. rewrite exported_cons, IH. reflexivity. }
    rewrite E. induction ks as [|k ks IH]; [reflexivity|].
    cbn [map]. rewrite sum_cons, IH. reflexivity.
Qed.

(** C2: for a reviews row of 17 fields whose business id is the NULL literal
    or an integer, met in any state of the scan: when the business id is
    NULL or differs from the target, or the location id is NULL or an
    integer that is no known location id, the body goes on with the state
    untouched, no file written and no counter changed, and raises nothing;
    and a row of the target business and of a known location id puts one
    row in the file opened for that location id, leaves every other file
    as it was, and adds one to the counter of that id and to no other. *)
Theorem export_row_filter (locations : list Location.t) (business_id : Z)
        (normalize_whitespace keep_newlines : bool) (progress_every : Z)
        (parts : list string) (st : scan_state) :
  scanning locations st ->
  List.length parts = 17%nat ->
  null_or_int (nth 11 parts "") = true ->
  let loc_by_id := make_loc_by_id locations in
  let writers := snd (open_writers locations) in
  let body := export_row business_id loc_by_id writers normalize_whitespace
                         keep_newlines progress_every in
  (left_out business_id (Dict.keys loc_by_id) parts ->
   body parts st = Continue st)
  /\ (forall lid,
         PyInt.parse (nth 11 parts "") = Some business_id ->
         PyInt.parse (nth 12 parts "") = Some lid ->
         In lid (Dict.keys loc_by_id) ->
         exists loc h f c st',
           body parts st = Continue st'
           /\ Dict.get lid loc_by_id = Some loc
           /\ Dict.get lid writers = Some h
           /\ nth_error (files st) h = Some f
           /\ Location.id (opened_for f) = lid
           /\ nth_error (files st') h
              = Some (writerow (review_row normalize_whitespace keep_newlines
                                           lid loc parts) f)
           /\ (forall i, i <> h ->
                         nth_error (files st') i = nth_error (files st) i)
           /\ Dict.get lid (counts st) = Some c
           /\ Dict.get lid (counts st') = Some (c + 1)%Z
           /\ (forall k, k <> lid ->
                         Dict.get k (counts st') = Dict.get k (counts st))).
Proof.
  intros Hst Hlen Htyped loc_by_id writers body. split.
  - intros Hout.
    apply (export_row_left_out locations business_id normalize_whitespace
             keep_newlines progress_every parts st Htyped Hout).
  - intros lid H11 H12 Hin.
    destruct (export_row_accepts locations business_id normalize_whitespace
                keep_newlines progress_every parts st lid Hst H11 H12 Hin)
      as (loc & h & f & c & st' & Hloc & Hh & Hf & Hid & Hc & Hb & Hcs & Hfs & _).
    exists loc, h, f, c, st'.
    split; [exact Hb|]. split; [exact Hloc|]. split; [exact Hh|].
    split; [exact Hf|]. split; [exact Hid|].
    split; [rewrite Hfs; apply update_same; exact Hf|].
    split; [intros i Hi; rewrite Hfs; apply update_other; congruence|].
    split; [exact Hc|].
    split; [rewrite Hcs; apply DictFacts.get_set_same|].
    intros k Hk. rewrite Hcs. apply DictFacts.get_set_other. congruence.
Qed.

Lemma export_row_filter_witness :
  let st := start_state two_locations in
  let body := export_row 7 (make_loc_by_id two_locations)
                         (snd (open_writers two_locations)) true false 0 in
  body (row_of (review_line "r3" "other" "8" "3")) st = Continue st
  /\ body (row_of (review_line "r4" "nowhere" "7" "\N")) st = Continue st
  /\ exists st',
      body (row_of (review_line "r2" "fine\tfood" "7" "9")) st = Continue st'
      /\ nth_error (files st') 1
         = Some (MkFile (Location.mk 9 "Uptown" 7)
                   [ header_row;
                     [ CInt 9; CStr "Uptown"; CStr "r2"; CStr "2020-01-01";
                       CStr "5"; CStr "google"; CStr "Ann"; CStr "fine food";
                       CStr ""; CStr "http://x" ] ] [] 0)
      /\ nth_error (files st') 0 = nth_error (files st) 0
      /\ Dict.get 9 (counts st') = Some 1%Z
      /\ Dict.get 3 (counts st') = Some 0%Z.
Proof.
  intros st body.
  assert (Hst : scanning two_locations st) by apply start_scanning.
  split; [|split].
  - apply (proj1 (export_row_filter two_locations 7 true false 0
                    (row_of (review_line "r3" "other" "8" "3")) st Hst
                    eq_refl eq_refl)).
    right. left. exists 8%Z. split; [reflexivity|discriminate].
  - apply (proj1 (export_row_filter two_locations 7 true false 0
                    (row_of (review_line "r4" "nowhere" "7" "\N")) st Hst
                    eq_refl eq_refl)).
    right. right. left. reflexivity.
  - destruct (proj2 (export_row_filter two_locations 7 true false 0
                       (row_of (review_line "r2" "fine\tfood" "7" "9")) st Hst
                       eq_refl eq_refl) 9%Z eq_refl eq_refl)
      as (loc & h & f & c & st' & Hb & Hloc & Hh & Hf & _ & Hrow & Hothers
          & Hc & Hc' & Hcs).
    { vm_compute. auto. }
    exists st'. split; [exact Hb|].
    vm_compute in Hloc. injection Hloc as <-.
    vm_compute in Hh. injection Hh as <-.
    vm_compute in Hf. injection Hf as <-.
    vm_compute in Hc. injection Hc as <-.
    split; [rewrite Hrow; vm_compute; reflexivity|].
    split; [apply Hothers; discriminate|].
    split; [exact Hc'|].
    rewrite Hcs by discriminate. vm_compute. reflexivity.
Defined.

(** ** The whole scan *)

Lemma scan_reviews_scanning (locations : list Location.t) (business_id : Z)
      (nw kn : bool) (pe : Z) (f : list string) :
  forall (in_copy : bool) (line_no : nat) (st : scan_state),
    scanning locations st ->
    scanning locations
      (fst (scan_reviews business_id (make_loc_by_id locations)
                         (snd (open_writers locations)) nw kn pe
                         in_copy line_no f st)).
Proof.
  induction f as [|raw f IH]; intros in_copy line_no st Hst; [exact Hst|].
  cbn [scan_reviews].
  destruct in_copy; cbn [negb].
  - destruct (String.eqb (line_of raw) "\."); [exact Hst|].
    destruct (List.length (split_tabs (line_of raw)) =? 17)%nat;
      cbn [negb]; [|exact Hst].
    destruct (export_row business_id (make_loc_by_id locations)
                (snd (open_writers locations)) nw kn pe
                (split_tabs (line_of raw)) st) as [st'|e] eqn:Hbody;
      [|exact Hst].
    apply IH.
    exact (export_row_scanning locations business_id nw kn pe _ st st'
             Hst Hbody).
  - destruct (Str.startswith "COPY public.reviews_review " (line_of raw));
      apply IH; exact Hst.
Qed.

Lemma close_all_seq (pre fs : list out_file) :
  close_all (seq (List.length pre) (List.length fs)) (pre ++ fs)
  = pre ++ map close fs.
Proof.
  revert pre. induction fs as [|f fs IH]; intros pre; [reflexivity|].
  cbn [List.length seq close_all map].
  rewrite update_app_here.
  change (pre ++ close f :: fs) with (pre ++ [close f] ++ fs).
  rewrite app_assoc.
  replace (S (List.length pre)) with (List.length (pre ++ [close f]))
    by (rewrite length_app; simpl; lia).
  rewrite IH. rewrite <- app_assoc. reflexivity.
Qed.

Lemma open_writers_from_values (locs : list Location.t)
      (fs : list out_file) (w : Dict.t nat) :
  NoDup (Dict.keys w ++ map Location.id locs) ->
  Dict.values (snd (open_writers_from locs fs w))
  = Dict.values w ++ seq (List.length fs) (List.length locs).
Proof.
  revert fs w. induction locs as [|loc locs IH]; intros fs w Hnd.
  - simpl. rewrite app_nil_r. reflexivity.
  - cbn [open_writers_from map List.length seq] in *.
    assert (Hout : ~ In (Location.id loc) (Dict.keys w)).
    { intros Hin. apply NoDup_remove_2 in Hnd. apply Hnd.
      apply in_or_app. left. exact Hin. }
    rewrite (DictFacts.set_absent w _ (List.length fs) Hout).
    rewrite IH.
    + unfold Dict.values. rewrite map_app, length_app. cbn [map snd List.length].
      rewrite <- app_assoc. cbn [app].
      replace (List.length fs + 1)%nat with (S (List.length fs)) by lia.
      reflexivity.
    + unfold Dict.keys. rewrite map_app. cbn [map fst].
      rewrite <- app_assoc. exact Hnd.
Qed.

(** With distinct location ids the [finally] block closes every file once. *)
Lemma finally_closes (locations : list Location.t) (st : scan_state) :
  NoDup (map Location.id locations) ->
  scanning locations st ->
  close_all (Dict.values (snd (open_writers locations))) (files st)
  = map close (files st).
Proof.
  intros Hnd Hst. unfold open_writers.
  rewrite (open_writers_from_values locations [] [] Hnd). cbn [Dict.values map app List.length].
  rewrite <- (scanning_files _ _ Hst), length_map.
  apply (close_all_seq [] (files st)).
Qed.


Lemma two_locations_distinct : NoDup (map Location.id two_locations).
Proof.
  repeat constructor; cbn; intuition discriminate.
Qed.

(** ** Opening that is refused *)


Lemma open_writers_on_refused (d : disk) (opened : list Location.t)
      (loc : Location.t) (rest : list Location.t) :
  forall files writers,
    Forall (fun l => can_open d (filename l) = true) opened ->
    can_open d (filename loc) = false ->
    open_writers_on d (opened ++ loc :: rest) files writers
    = (files ++ map fresh_file opened, Raise OSError).
Proof.
  induction opened as [|l opened IH]; intros files writers Hall Hloc.
  - cbn [app open_writers_on map]. rewrite Hloc, app_nil_r. reflexivity.
  - inversion Hall as [|? ? Hl Hopened]; subst.
    cbn [app open_writers_on map]. rewrite Hl.
    rewrite IH by assumption. rewrite <- app_assoc. reflexivity.
Qed.


(** C5: the defect.  [open_writers] is called before the [try] statement,
    so the [finally] block does not cover it.  On a file system that grants
    the file of location 3 and refuses that of location 9, [export_reviews]
    ends with OSError and leaves the file object opened for location 3 as
    [open_writers] made it: never closed, its header row still in the buffer
    and nothing flushed. *)
Theorem export_reviews_leaves_file_open :
  let r := export_reviews_in uptown_taken sample_reviews 7 two_locations
                             true false 0 in
  result r = Raise OSError
  /\ files_after r = [MkFile (Location.mk 3 "Downtown" 7) [header_row] [] 0]
  /\ map closes (files_after r) = [0%nat]
  /\ map flushed (files_after r) = [[]].
Proof.
  cbv zeta. repeat split; vm_compute; reflexivity.
Qed.

(** A second way to a file left open, on a file system that refuses
    nothing: of two locations that share an id the dictionary of writers
    keeps the file of the second only, and the [finally] block, which closes
    the values of the dictionary, never closes the file of the first. *)
Lemma export_reviews_twin_ids :
  let r := export_reviews sample_reviews 7 twin_locations true false 0 in
  result r = Ok None
  /\ map opened_for (files_after r) = twin_locations
  /\ map closes (files_after r) = [0%nat; 1%nat]
  /\ map pending (files_after r) = [[header_row]; []].
Proof.
  cbv zeta. repeat split; vm_compute; reflexivity.
Qed.

(** ** The summary *)

Lemma data_rows_update_close (h : nat) (fs : list out_file) :
  map data_rows (update h close fs) = map data_rows fs.
Proof.
  revert h. induction fs as [|f fs IH]; intros [|h]; cbn [update map];
    try reflexivity.
  - unfold data_rows at 1, close. cbn [flushed pending].
    rewrite app_nil_r. reflexivity.
  - rewrite IH. reflexivity.
Qed.

Lemma exported_close_all (hs : list nat) (fs : list out_file) :
  exported (close_all hs fs) = exported fs.
Proof.
  revert fs. induction hs as [|h hs IH]; intros fs; [reflexivity|].
  cbn [close_all]. rewrite IH. unfold exported.
  rewrite data_rows_update_close. reflexivity.
Qed.

Lemma make_loc_by_id_keys_distinct (locs : list Location.t) :
  NoDup (map Location.id locs) ->
  Dict.keys (make_loc_by_id locs) = map Location.id locs.
Proof.
  unfold make_loc_by_id.
  assert (G : forall d : Dict.t Location.t,
             NoDup (Dict.keys d ++ map Location.id locs) ->
             Dict.keys (fold_left (fun d l => Dict.set (Location.id l) l d)
                                  locs d)
             = Dict.keys d ++ map Location.id locs).
  { induction locs as [|loc locs IH]; intros d Hnd.
    - simpl. rewrite app_nil_r. reflexivity.
    - cbn [fold_left map] in *.
      assert (Hout : ~ In (Location.id loc) (Dict.keys d)).
      { intros Hin. apply NoDup_remove_2 in Hnd. apply Hnd.
        apply in_or_app. left. exact Hin. }
      rewrite (DictFacts.set_absent d _ loc Hout), IH.
      + unfold Dict.keys. rewrite map_app. cbn [map fst].
        rewrite <- app_assoc. reflexivity.
      + unfold Dict.keys. rewrite map_app. cbn [map fst].
        rewrite <- app_assoc. exact Hnd. }
  intros Hnd. apply (G [] Hnd).
Qed.

Lemma values_count_of (cs : Dict.t Z) :
  NoDup (Dict.keys cs) -> map (count_of cs) (Dict.keys cs) = Dict.values cs.
Proof.
  unfold Dict.keys, Dict.values.
  induction cs as [|[k v] cs IH]; intros Hnd; [reflexivity|].
  cbn [map fst snd] in *.
  inversion Hnd as [|? ? Hout Hnd']; subst.
  f_equal.
  - unfold count_of. cbn [Dict.get]. rewrite Z.eqb_refl. reflexivity.
  - rewrite <- (IH Hnd'). apply map_ext_in. intros k' Hin.
    unfold count_of. cbn [Dict.get].
    destruct (Z.eqb_spec k k') as [->|]; [contradiction|reflexivity].
Qed.

(** C9, as stated, fails: the value [export_reviews] returns is None, not the
    counts, here one review for each of the two locations. *)
Lemma export_reviews_returns_none :
  let r := export_reviews sample_reviews 7 two_locations true false 0 in
  result r = Ok None
  /\ printed_lines r
     = [Done 2; LocationCount 3 "Downtown" 1; LocationCount 9 "Uptown" 1]
  /\ result r <> Ok (Some [(3, 1); (9, 1)]%Z).
Proof.
  cbv zeta. split; [vm_compute; reflexivity|].
  split; [vm_compute; reflexivity|].
  vm_compute. discriminate.
Qed.

(** C9, as amended: a call of [export_reviews] that ends without an exception
    returns None; it prints, after the progress notices, the total and then
    the count of each location; the total is the sum of the counters, which
    is the number of data rows written to the output files and, for
    locations with distinct ids, the sum of the counts printed. *)
Theorem export_reviews_summary (reviews : list string) (business_id : Z)
        (locations : list Location.t) (nw kn : bool) (pe : Z)
        (v : option (Dict.t Z)) :
  let r := export_reviews reviews business_id locations nw kn pe in
  result r = Ok v ->
  v = None
  /\ exists progress cs,
      printed_lines r
      = progress
          ++ Done (sum (Dict.values cs))
          :: map (fun loc => LocationCount (Location.id loc) (Location.name loc)
                                           (count_of cs (Location.id loc)))
                 locations
      /\ sum (Dict.values cs) = exported (files_after r)
      /\ (NoDup (map Location.id locations) ->
          sum (Dict.values cs)
          = sum (map (fun loc => count_of cs (Location.id loc)) locations)).
Proof.
  intros r. subst r. unfold export_reviews, after_scan.
  pose proof (scan_reviews_scanning locations business_id nw kn pe reviews
                false 0 (start_state locations) (start_scanning locations))
    as Hst.
  destruct (scan_reviews business_id (make_loc_by_id locations)
              (snd (open_writers locations)) nw kn pe false 0 reviews
              (start_state locations)) as [st [e|]];
    cbn [result printed_lines files_after fst] in *; [discriminate|].
  intros [= <-]. split; [reflexivity|].
  exists (log st), (counts st). split; [reflexivity|]. split.
  - rewrite exported_close_all. exact (scanning_total _ _ Hst).
  - intros Hnd.
    pose proof (scanning_keys _ _ Hst) as Hkeys.
    rewrite (make_loc_by_id_keys_distinct locations Hnd) in Hkeys.
    rewrite <- (values_count_of (counts st)) by (rewrite Hkeys; exact Hnd).
    rewrite Hkeys, map_map. reflexivity.
Qed.

Lemma export_reviews_summary_witness :
  let r := export_reviews sample_reviews 7 two_locations true false 0 in
  exists progress cs,
    printed_lines r
    = progress
        ++ Done (sum (Dict.values cs))
        :: map (fun loc => LocationCount (Location.id loc) (Location.name loc)
                                         (count_of cs (Location.id loc)))
               two_locations
    /\ sum (Dict.values cs) = exported (files_after r)
    /\ (NoDup (map Location.id two_locations) ->
        sum (Dict.values cs)
        = sum (map (fun loc => count_of cs (Location.id loc)) two_locations)).
Proof.
  intros r.
  apply (proj2 (export_reviews_summary sample_reviews 7 two_locations
                  true false 0 None eq_refl)).
Defined.

(** ** The scan of the reviews file *)

Section Scan.
Variable business_id : Z.
Variable loc_by_id : Dict.t Location.t.
Variable writers : Dict.t nat.
Variables nw kn : bool.
Variable pe : Z.

Let scan := scan_reviews business_id loc_by_id writers nw kn pe.
Let body := export_row business_id loc_by_id writers nw kn pe.

Lemma scan_reviews_skip (pre f : list string) (line_no : nat)
      (st : scan_state) :
  Forall (fun raw => opens_reviews raw = false) pre ->
  scan false line_no (pre ++ f) st
  = scan false (List.length pre + line_no) f st.
Proof.
  intros Hpre. revert line_no.
  induction Hpre as [|raw pre Hraw _ IH]; intros line_no; [reflexivity|].
  unfold scan in *. cbn [app scan_reviews negb List.length].
  unfold opens_reviews in Hraw. rewrite Hraw. rewrite IH.
  f_equal. lia.
Qed.

Lemma scan_reviews_rows (rows : list string) (term : string)
      (rest : list string) (line_no : nat) (st : scan_state) :
  Forall (fun raw => is_terminator raw = false) rows ->
  Forall (fun raw => List.length (row_of raw) = 17%nat) rows ->
  is_terminator term = true ->
  scan true line_no (rows ++ term :: rest) st
  = export_rows body (map row_of rows) st.
Proof.
  intros Hrows. revert line_no st.
  induction Hrows as [|raw rows Hraw _ IH]; intros line_no st Hn Hterm.
  - unfold scan. cbn [app scan_reviews negb map export_rows].
    unfold is_terminator in Hterm. rewrite Hterm. reflexivity.
  - inversion Hn as [|? ? Hlen Hn']; subst.
    unfold scan in *. cbn [app scan_reviews negb map export_rows].
    unfold is_terminator in Hraw. rewrite Hraw.
    fold (row_of raw). rewrite Hlen. cbn [Nat.eqb negb].
    fold body. destruct (body (row_of raw) st) as [st'|e]; [|reflexivity].
    apply IH; assumption.
Qed.
End Scan.

(** C4: the defect.  On a reviews file in which no block starts, the reader
    dies with the block-not-found error, while [export_reviews], which has
    a loop of its own and no check after it, ends normally with nothing
    exported; it does the same on a block that the end of the file cuts,
    where the reader dies with the block-not-terminated error. *)
Theorem export_reviews_without_block :
  let file := [raw_line ["-- reviews"]; raw_line [""]] in
  let cut := [reviews_header; review_line "r1" "good" "7" "3"] in
  iter_copy_rows file "reviews_review" = MkRead [] (Died BlockNotFound)
  /\ result (export_reviews file 7 two_locations true false 0) = Ok None
  /\ printed_lines (export_reviews file 7 two_locations true false 0)
     = [Done 0; LocationCount 3 "Downtown" 0; LocationCount 9 "Uptown" 0]
  /\ outcome (iter_copy_rows cut "reviews_review") = Died BlockNotTerminated
  /\ result (export_reviews cut 7 two_locations true false 0) = Ok None.
Proof.
  cbv zeta. repeat split; vm_compute; reflexivity.
Qed.

(** X20: [export_reviews] reads the reviews file once, with a loop of its
    own: the first line that starts with the text COPY public.reviews_review
    and a space opens the block, and when each line from there to the first
    terminator has 17 tab-separated fields, these lines go once each, in
    file order, through the row filter, up to one that raises; no line
    before the header or after the terminator does. *)
Theorem export_reviews_scans_block_once (business_id : Z)
        (locations : list Location.t) (nw kn : bool) (pe : Z)
        (pre : list string) (hdr : string) (rows : list string)
        (term : string) (rest : list string) :
  Forall (fun raw => opens_reviews raw = false) pre ->
  opens_reviews hdr = true ->
  Forall (fun raw => is_terminator raw = false) rows ->
  Forall (fun raw => List.length (row_of raw) = 17%nat) rows ->
  is_terminator term = true ->
  let loc_by_id := make_loc_by_id locations in
  let writers := snd (open_writers locations) in
  export_reviews (pre ++ hdr :: rows ++ term :: rest) business_id locations
                 nw kn pe
  = after_scan locations writers
      (export_rows (export_row business_id loc_by_id writers nw kn pe)
                   (map row_of rows) (start_state locations)).
Proof.
  intros Hpre Hhdr Hrows Hn Hterm loc_by_id writers.
  unfold export_reviews. fold loc_by_id writers. f_equal.
  rewrite scan_reviews_skip by exact Hpre.
  cbn [scan_reviews negb]. unfold opens_reviews in Hhdr. rewrite Hhdr.
  apply scan_reviews_rows; assumption.
Qed.

Lemma export_reviews_scans_block_once_witness :
  let body := export_row 7 (make_loc_by_id two_locations)
                         (snd (open_writers two_locations)) true false 0 in
  export_reviews
    ([raw_line ["-- reviews"]]
       ++ reviews_header
       :: [review_line "r1" "good" "7" "3"; review_line "r3" "other" "8" "3"]
       ++ t_end :: [review_line "r2" "late" "7" "9"])
    7 two_locations true false 0
  = after_scan two_locations (snd (open_writers two_locations))
      (export_rows body
         [row_of (review_line "r1" "good" "7" "3");
          row_of (review_line "r3" "other" "8" "3")]
         (start_state two_locations)).
Proof.
  intros body.
  apply (export_reviews_scans_block_once 7 two_locations true false 0
           [raw_line ["-- reviews"]] reviews_header
           [review_line "r1" "good" "7" "3"; review_line "r3" "other" "8" "3"]
           t_end [review_line "r2" "late" "7" "9"]).
  - repeat constructor.
  - vm_compute. reflexivity.
  - repeat constructor.
  - repeat constructor.
  - vm_compute. reflexivity.
Defined.


(** * Further properties *)

(** ** Text *)

Lemma every_char_app (p : ascii -> bool) (a b : string) :
  every_char p (a ++ b) = every_char p a && every_char p b.
Proof.
  induction a as [|c a IH]; simpl; [reflexivity|].
  rewrite IH, andb_assoc. reflexivity.
Qed.

Lemma every_char_impl (p q : ascii -> bool) (s : string) :
  (forall c, p c = true -> q c = true) ->
  every_char p s = true -> every_char q s = true.
Proof.
  intros Hpq. induction s as [|c s IH]; simpl; [reflexivity|].
  intros H. apply andb_true_iff in H as [Hc Hs].
  rewrite (Hpq c Hc), (IH Hs). reflexivity.
Qed.

Lemma every_char_lstrip (p cls : ascii -> bool) (s : string) :
  every_char p s = true -> every_char p (Str.lstrip cls s) = true.
Proof.
  induction s as [|c s IH]; simpl; [reflexivity|].
  intros H. destruct (cls c); [|exact H].
  apply andb_true_iff in H as [_ Hs]. exact (IH Hs).
Qed.

Lemma every_char_rstrip (p cls : ascii -> bool) (s : string) :
  every_char p s = true -> every_char p (Str.rstrip cls s) = true.
Proof.
  induction s as [|c s IH]; simpl; [reflexivity|].
  intros H. apply andb_true_iff in H as [Hc Hs]. specialize (IH Hs).
  destruct (Str.rstrip cls s) as [|c' r'].
  - destruct (cls c); simpl; [reflexivity|]. rewrite Hc. reflexivity.
  - simpl in *. rewrite Hc. exact IH.
Qed.

Lemma every_char_strip (p : ascii -> bool) (s : string) :
  every_char p s = true -> every_char p (Str.strip s) = true.
Proof.
  intros H. unfold Str.strip.
  apply every_char_lstrip, every_char_rstrip, H.
Qed.

(** What a replacement leaves: the characters of [s] and those of [new]. *)
Lemma every_char_replace_from (p : ascii -> bool) (old new s : string)
      (skip : nat) :
  every_char p new = true -> every_char p s = true ->
  every_char p (Str.replace_from skip old new s) = true.
Proof.
  intros Hnew. revert skip. induction s as [|c s IH]; intros skip Hs;
    [reflexivity|].
  simpl in Hs. apply andb_true_iff in Hs as [Hc Hs].
  cbn [Str.replace_from]. destruct skip as [|k]; [|apply IH, Hs].
  destruct (Str.startswith old (String c s)).
  - rewrite every_char_app, Hnew. apply IH, Hs.
  - simpl. rewrite Hc. apply IH, Hs.
Qed.

(** Replacing a one-character text leaves no such character, provided the
    replacement has none. *)
Lemma replace_char_gone (a : ascii) (new s : string) :
  every_char (is_not a) new = true ->
  every_char (is_not a) (Str.replace (String a "") new s) = true.
Proof.
  intros Hnew. unfold Str.replace. induction s as [|c s IH]; [reflexivity|].
  cbn [Str.replace_from]. unfold Str.startswith. cbn [Str.drop_prefix].
  destruct (Ascii.eqb a c) eqn:E; cbn [String.length Nat.sub].
  - rewrite every_char_app, Hnew. exact IH.
  - simpl. rewrite IH. unfold is_not. rewrite Ascii.eqb_sym, E. reflexivity.
Qed.

(** A text whose first character is nowhere in [s] is replaced nowhere. *)
Lemma replace_absent (a : ascii) (old new s : string) :
  every_char (is_not a) s = true ->
  Str.replace (String a old) new s = s.
Proof.
  unfold Str.replace. induction s as [|c s IH]; [reflexivity|].
  simpl. intros H. apply andb_true_iff in H as [Hc Hs].
  unfold Str.startswith. cbn [Str.drop_prefix].
  unfold is_not in Hc. apply negb_true_iff in Hc.
  rewrite Ascii.eqb_sym, Hc. rewrite (IH Hs). reflexivity.
Qed.

(** What [re.sub] of the runs of a class leaves: characters outside the
    class and those of the replacement. *)
Lemma every_char_sub_runs (p cls : ascii -> bool) (repl s : string)
      (inrun : bool) :
  every_char p repl = true ->
  (forall c, cls c = true \/ p c = true) ->
  every_char p (Str.sub_runs cls repl inrun s) = true.
Proof.
  intros Hrepl Hc. revert inrun. induction s as [|c s IH]; intros inrun;
    [reflexivity|].
  cbn [Str.sub_runs]. destruct (cls c) eqn:E.
  - destruct inrun; [apply IH|]. rewrite every_char_app, Hrepl. apply IH.
  - simpl. destruct (Hc c) as [H|H]; [congruence|].
    rewrite H. apply IH.
Qed.

Lemma every_char_sub_runs_keeps (p cls : ascii -> bool) (repl s : string)
      (inrun : bool) :
  every_char p repl = true -> every_char p s = true ->
  every_char p (Str.sub_runs cls repl inrun s) = true.
Proof.
  intros Hrepl. revert inrun. induction s as [|c s IH]; intros inrun Hs;
    [reflexivity|].
  simpl in Hs. apply andb_true_iff in Hs as [Hc Hs].
  cbn [Str.sub_runs]. destruct (cls c).
  - destruct inrun; [apply IH, Hs|]. rewrite every_char_app, Hrepl.
    apply IH, Hs.
  - simpl. rewrite Hc. apply IH, Hs.
Qed.

Lemma class_or_not (a : ascii) (cls : ascii -> bool) :
  cls a = true -> forall c, cls c = true \/ is_not a c = true.
Proof.
  intros Ha c. unfold is_not. destruct (Ascii.eqb_spec c a) as [->|];
    [left; exact Ha|right; reflexivity].
Qed.

(** X1: a field with no backslash is its own decoding. *)
Theorem decode_copy_text_plain (s : string) :
  every_char (is_not backslash) s = true -> decode_copy_text s = s.
Proof.
  intros H. unfold decode_copy_text.
  change "\\" with (String backslash (String backslash "")).
  change "\t" with (String backslash "t").
  change "\n" with (String backslash "n").
  change "\r" with (String backslash "r").
  rewrite (replace_absent backslash _ _ s H).
  rewrite (replace_absent backslash _ _ s H).
  rewrite (replace_absent backslash _ _ s H).
  apply (replace_absent backslash _ _ s H).
Qed.

Lemma decode_copy_text_plain_witness :
  decode_copy_text "Trattoria da Mario, 5/5" = "Trattoria da Mario, 5/5".
Proof.
  apply decode_copy_text_plain. vm_compute. reflexivity.
Defined.

(** X2: whatever the text, [normalize_text] returns no tab and no carriage
    return, and no newline either unless newlines are kept. *)
Theorem normalize_text_clean (s : string) (keep_newlines : bool) :
  every_char (is_not Chr.tab) (normalize_text s keep_newlines) = true
  /\ every_char (is_not Chr.cr) (normalize_text s keep_newlines) = true
  /\ (keep_newlines = false ->
      every_char (is_not Chr.nl) (normalize_text s keep_newlines) = true).
Proof.
  unfold normalize_text.
  set (s1 := Str.replace Str.cr Str.nl (Str.replace (Str.cr ++ Str.nl) Str.nl s)).
  set (s2 := Str.sub_runs Chr.is_blank " " false s1).
  set (s3 := Str.sub_runs Chr.is_nl Str.nl false s2).
  assert (Hcr1 : every_char (is_not Chr.cr) s1 = true)
    by (apply replace_char_gone; reflexivity).
  assert (Hcr3 : every_char (is_not Chr.cr) (Str.strip s3) = true).
  { apply every_char_strip.
    apply every_char_sub_runs_keeps; [reflexivity|].
    apply every_char_sub_runs_keeps; [reflexivity|exact Hcr1]. }
  assert (Htab3 : every_char (is_not Chr.tab) (Str.strip s3) = true).
  { apply every_char_strip.
    apply every_char_sub_runs_keeps; [reflexivity|].
    apply every_char_sub_runs; [reflexivity|].
    apply class_or_not. reflexivity. }
  destruct keep_newlines; cbn [negb].
  - split; [exact Htab3|]. split; [exact Hcr3|]. discriminate.
  - split; [|split].
    + apply every_char_replace_from; [reflexivity|exact Htab3].
    + apply every_char_replace_from; [reflexivity|exact Hcr3].
    + intros _. apply (replace_char_gone Chr.nl). reflexivity.
Qed.

(** ** Slugs and file names *)

Lemma lstrip_lstrip (cls : ascii -> bool) (s : string) :
  Str.lstrip cls (Str.lstrip cls s) = Str.lstrip cls s.
Proof.
  induction s as [|c s IH]; simpl; [reflexivity|].
  destruct (cls c) eqn:E; [exact IH|]. simpl. rewrite E. reflexivity.
Qed.

Lemma rstrip_rstrip (cls : ascii -> bool) (s : string) :
  Str.rstrip cls (Str.rstrip cls s) = Str.rstrip cls s.
Proof.
  induction s as [|c s IH]; simpl; [reflexivity|].
  destruct (Str.rstrip cls s) as [|c' r'] eqn:E.
  - destruct (cls c) eqn:Ec; simpl; [reflexivity|]. rewrite Ec. reflexivity.
  - cbn [Str.rstrip] in *. rewrite IH. reflexivity.
Qed.

Lemma rstrip_fixed_tail (cls : ascii -> bool) (c : ascii) (r : string) :
  Str.rstrip cls (String c r) = String c r ->
  r = "" \/ Str.rstrip cls r = r.
Proof.
  simpl. destruct (Str.rstrip cls r) as [|c' r'] eqn:E.
  - destruct (cls c); [discriminate|]. intros [= <-]. left. reflexivity.
  - intros [= <-]. right. reflexivity.
Qed.

Lemma rstrip_lstrip (cls : ascii -> bool) (x : string) :
  Str.rstrip cls x = x ->
  Str.rstrip cls (Str.lstrip cls x) = Str.lstrip cls x.
Proof.
  induction x as [|c r IH]; [reflexivity|].
  intros H. cbn [Str.lstrip]. destruct (cls c); [|exact H].
  destruct (rstrip_fixed_tail cls c r H) as [->|Hr]; [reflexivity|].
  exact (IH Hr).
Qed.

Lemma slug_class (c : ascii) :
  not_slug_alnum c = true \/ is_slug_char c = true.
Proof.
  unfold not_slug_alnum, is_slug_char.
  destruct (Chr.between 97 122 c || Chr.is_digit c); simpl; auto.
Qed.

Lemma slugify_chars (s : string) :
  every_char is_slug_char (slugify s) = true.
Proof.
  unfold slugify.
  set (t := Str.sub_runs is_underscore "_" false
              (Str.sub_runs not_slug_alnum "_" false
                            (Str.lower (Str.strip s)))).
  assert (Ht : every_char is_slug_char t = true).
  { apply every_char_sub_runs_keeps; [reflexivity|].
    apply every_char_sub_runs; [reflexivity|]. exact slug_class. }
  destruct (String.eqb (Str.lstrip is_underscore (Str.rstrip is_underscore t))
                       ""); [reflexivity|].
  apply every_char_lstrip, every_char_rstrip, Ht.
Qed.

(** X3: whatever the name, its slug is never empty, is made of lower-case
    letters, digits and underscores only, and has no underscore at either
    end. *)
Theorem slugify_shape (s : string) :
  slugify s <> ""
  /\ every_char is_slug_char (slugify s) = true
  /\ Str.lstrip is_underscore (slugify s) = slugify s
  /\ Str.rstrip is_underscore (slugify s) = slugify s.
Proof.
  split; [|split; [apply slugify_chars|]]; unfold slugify;
    set (t := Str.sub_runs is_underscore "_" false
                (Str.sub_runs not_slug_alnum "_" false
                              (Str.lower (Str.strip s))));
    destruct (String.eqb_spec
                (Str.lstrip is_underscore (Str.rstrip is_underscore t)) "")
      as [E|E].
  - discriminate.
  - exact E.
  - split; reflexivity.
  - split; [apply lstrip_lstrip|]. apply rstrip_lstrip, rstrip_rstrip.
Qed.

Lemma str_digits (z : Z) :
  every_char (fun c => Chr.is_digit c || Ascii.eqb c "-"%char) (str z) = true.
Proof.
  unfold str.
  assert (U : forall d,
             every_char (fun c => Chr.is_digit c || Ascii.eqb c "-"%char)
                        (NilEmpty.string_of_uint d) = true).
  { induction d; simpl; auto. }
  destruct (Z.to_int z); simpl; apply U.
Qed.

Lemma str_inj (a b : Z) : str a = str b -> a = b.
Proof.
  unfold str. intros H. apply DecimalZ.to_int_inj.
  assert (E : Some (Z.to_int a) = Some (Z.to_int b)).
  { rewrite <- !NilEmpty.isi. rewrite H. reflexivity. }
  injection E as E. exact E.
Qed.

Lemma cut_at_underscore (a b x y : string) :
  every_char (is_not Chr.underscore) a = true ->
  every_char (is_not Chr.underscore) b = true ->
  (a ++ String Chr.underscore x)%string = (b ++ String Chr.underscore y)%string ->
  a = b.
Proof.
  revert b. induction a as [|c a IH]; intros [|d b] Ha Hb H; simpl in *.
  - reflexivity.
  - injection H as H _. subst d.
    apply andb_true_iff in Hb as [Hb _]. discriminate.
  - injection H as H _. subst c.
    apply andb_true_iff in Ha as [Ha _]. discriminate.
  - injection H as -> H.
    apply andb_true_iff in Ha as [_ Ha]. apply andb_true_iff in Hb as [_ Hb].
    f_equal. exact (IH b Ha Hb H).
Qed.

Lemma str_no_underscore (z : Z) :
  every_char (is_not Chr.underscore) (str z) = true.
Proof.
  apply (every_char_impl (fun c => Chr.is_digit c || Ascii.eqb c "-"%char));
    [|apply str_digits].
  intros c H. unfold is_not.
  destruct (Ascii.eqb_spec c Chr.underscore) as [->|]; [|reflexivity].
  vm_compute in H. discriminate.
Qed.

Lemma filename_id (l1 l2 : Location.t) :
  filename l1 = filename l2 -> Location.id l1 = Location.id l2.
Proof.
  unfold filename. intros H.
  cbn [String.append] in H.
  repeat (injection H as H).
  apply str_inj.
  apply (cut_at_underscore _ _ _ _ (str_no_underscore _) (str_no_underscore _) H).
Qed.

Lemma NoDup_map_through {A B C : Type} (f : A -> B) (g : A -> C)
      (l : list A) :
  (forall x y, f x = f y -> g x = g y) ->
  NoDup (map g l) -> NoDup (map f l).
Proof.
  intros Hfg. induction l as [|x l IH]; simpl; intros H; [constructor|].
  inversion H as [|? ? Hout Hnd]; subst. constructor; [|exact (IH Hnd)].
  intros Hin. apply Hout. apply in_map_iff in Hin as (y & Hy & Hin).
  apply in_map_iff. exists y. split; [|exact Hin].
  symmetry. apply Hfg. symmetry. exact Hy.
Qed.

(** X4: for locations with distinct ids, no two files [open_writers] opens
    have the same name, whatever the names of the locations. *)
Theorem open_writers_distinct_names (locations : list Location.t) :
  NoDup (map Location.id locations) ->
  NoDup (map (fun f => filename (opened_for f)) (fst (open_writers locations))).
Proof.
  intros Hnd. unfold open_writers. rewrite open_writers_from_files.
  cbn [app]. rewrite map_map. cbn [fresh_file opened_for].
  exact (NoDup_map_through filename Location.id locations filename_id Hnd).
Qed.

Lemma open_writers_distinct_names_witness :
  NoDup (map (fun f => filename (opened_for f))
             (fst (open_writers
                     [Location.mk 3 "Centro" 7; Location.mk 9 "centro!" 7]))).
Proof.
  apply open_writers_distinct_names.
  repeat constructor; cbn; intuition discriminate.
Defined.

(** X5: the name of an output file is made of lower-case letters, digits,
    underscores, dots and the minus sign only. *)
Theorem filename_chars (loc : Location.t) :
  every_char is_filename_char (filename loc) = true.
Proof.
  unfold filename. rewrite !every_char_app.
  assert (Hslug : every_char is_filename_char (slugify (Location.name loc))
                  = true).
  { apply (every_char_impl is_slug_char);
      [|apply (slugify_shape (Location.name loc))].
    intros c H. unfold is_filename_char. rewrite H. reflexivity. }
  assert (Hstr : every_char is_filename_char (str (Location.id loc)) = true).
  { apply (every_char_impl (fun c => Chr.is_digit c || Ascii.eqb c "-"%char));
      [|apply str_digits].
    intros c H. unfold is_filename_char, is_slug_char.
    apply orb_true_iff in H as [H|H]; rewrite H;
      rewrite ?orb_true_r; reflexivity. }
  rewrite Hslug, Hstr. reflexivity.
Qed.

(** ** Rows and lines *)

Lemma split_not_nil (sep : ascii) (s : string) : Str.split sep s <> [].
Proof.
  destruct s as [|c r]; simpl; [discriminate|].
  destruct (Ascii.eqb c sep); [discriminate|].
  destruct (Str.split sep r); discriminate.
Qed.

Lemma concat_cons (sep x : string) (xs : list string) :
  xs <> [] ->
  String.concat sep (x :: xs) = (x ++ sep ++ String.concat sep xs)%string.
Proof.
  destruct xs; [contradiction|reflexivity].
Qed.

Lemma join_split (sep : ascii) (s : string) :
  String.concat (String sep "") (Str.split sep s) = s.
Proof.
  induction s as [|c r IH]; [reflexivity|].
  cbn [Str.split]. destruct (Ascii.eqb_spec c sep) as [->|Hne].
  - rewrite concat_cons by apply split_not_nil. rewrite IH. reflexivity.
  - pose proof (split_not_nil sep r) as Hnn.
    destruct (Str.split sep r) as [|p ps]; [contradiction|].
    destruct ps as [|q qs]; simpl in *; rewrite <- IH; reflexivity.
Qed.

Lemma split_fields (sep : ascii) (s : string) :
  Forall (fun f => every_char (is_not sep) f = true) (Str.split sep s).
Proof.
  induction s as [|c r IH]; [repeat constructor|].
  cbn [Str.split]. destruct (Ascii.eqb c sep) eqn:E.
  - constructor; [reflexivity|exact IH].
  - destruct (Str.split sep r) as [|p ps]; [repeat constructor|].
    + simpl. unfold is_not. rewrite E. reflexivity.
    + inversion IH as [|? ? Hp Hps]; subst. constructor; [|exact Hps].
      simpl. unfold is_not at 1. rewrite E. exact Hp.
Qed.

Section ReaderShape.
Variable table : string.

Lemma copy_rows_block_prefix (n : nat) (f : list string) :
  exists seg rest,
    f = seg ++ rest
    /\ yielded (copy_rows_from table true (Some n) f) = map row_of seg
    /\ Forall (fun raw => is_terminator raw = false) seg
    /\ Forall (fun raw => List.length (row_of raw) = n) seg.
Proof.
  induction f as [|raw f IH].
  - exists [], []. repeat split; constructor.
  - cbn [copy_rows_from negb].
    destruct (String.eqb (line_of raw) "\.") eqn:Et.
    { exists [], (raw :: f). repeat split; constructor. }
    unfold count_differs.
    destruct (Nat.eqb_spec (List.length (split_tabs (line_of raw))) n)
      as [En|En]; cbn [negb].
    + destruct IH as (seg & rest & -> & Hy & Ht & Hn).
      exists (raw :: seg), rest. cbn [yield yielded map].
      rewrite Hy. repeat split; constructor; assumption.
    + exists [], (raw :: f). repeat split; constructor.
Qed.

Lemma copy_rows_find_header (cc : option nat) (f : list string) :
  Forall (fun raw => is_header table raw = None) f
  \/ exists pre hdr n rest,
      f = pre ++ hdr :: rest
      /\ Forall (fun raw => is_header table raw = None) pre
      /\ is_header table hdr = Some n.
Proof.
  induction f as [|raw f IH]; [left; constructor|].
  destruct (is_header table raw) as [n|] eqn:E.
  - right. exists [], raw, n, f. repeat split; [constructor|exact E].
  - destruct IH as [IH|(pre & hdr & n & rest & -> & Hpre & Hhdr)].
    + left. constructor; assumption.
    + right. exists (raw :: pre), hdr, n, rest.
      repeat split; [constructor; assumption|exact Hhdr].
Qed.
End ReaderShape.

(** X6: whatever the file and the table, the reader either yields nothing or
    yields the tab-split rows of a run of consecutive lines that starts
    right after the first header for the table and holds no terminator;
    every row yielded has the number of fields that header declares, no
    field holds a tab, and the fields joined by tabs give back the line. *)
Theorem iter_copy_rows_yields_lines (file : list string) (table : string) :
  yielded (iter_copy_rows file table) = []
  \/ exists pre hdr n seg rest,
      file = pre ++ hdr :: seg ++ rest
      /\ Forall (fun raw => is_header table raw = None) pre
      /\ is_header table hdr = Some n
      /\ Forall (fun raw => is_terminator raw = false) seg
      /\ yielded (iter_copy_rows file table) = map row_of seg
      /\ Forall (fun row => List.length row = n)
                (yielded (iter_copy_rows file table))
      /\ map (String.concat Str.tab) (yielded (iter_copy_rows file table))
         = map line_of seg
      /\ Forall (Forall (fun f => every_char (is_not Chr.tab) f = true))
                (yielded (iter_copy_rows file table)).
Proof.
  unfold iter_copy_rows.
  destruct (copy_rows_find_header table None file)
    as [Hnone|(pre & hdr & n & after & -> & Hpre & Hhdr)].
  - left. rewrite <- (app_nil_r file).
    rewrite (copy_rows_skip table None file [] Hnone). reflexivity.
  - right.
    destruct (copy_rows_block_prefix table n after)
      as (seg & rest & -> & Hy & Ht & Hn).
    exists pre, hdr, n, seg, rest.
    rewrite (copy_rows_skip table None pre _ Hpre).
    rewrite (copy_rows_enter table None hdr n _ Hhdr).
    rewrite Hy. repeat split; try assumption.
    + apply Forall_map. exact Hn.
    + rewrite map_map. apply map_ext. intros raw. unfold row_of, split_tabs.
      apply join_split.
    + apply Forall_map, Forall_forall. intros raw _.
      unfold row_of, split_tabs. apply split_fields.
Qed.

(** ** Headers in canonical form *)

Lemma append_nil_r (s : string) : (s ++ "")%string = s.
Proof. induction s as [|c s IH]; simpl; [|rewrite IH]; reflexivity. Qed.

Lemma star_through {A : Type} (cls : ascii -> bool)
      (k : string -> string -> option A) (a b : string) (x : A) :
  every_char cls a = true ->
  Re.star cls (fun taken rest => k (a ++ taken)%string rest) b = Some x ->
  Re.star cls k (a ++ b) = Some x.
Proof.
  revert k. induction a as [|c a IH]; intros k Ha Hb.
  - exact Hb.
  - simpl in Ha. apply andb_true_iff in Ha as [Hc Ha].
    cbn [String.append Re.star]. rewrite Hc.
    rewrite (IH (fun taken rest => k (String c taken) rest) Ha Hb).
    reflexivity.
Qed.

Lemma star_stops {A : Type} (cls : ascii -> bool)
      (k : string -> string -> option A) (r : string) :
  stops cls r = true -> Re.star cls k r = k "" r.
Proof.
  destruct r as [|d r]; [reflexivity|]. simpl. intros H.
  apply negb_true_iff in H. rewrite H. reflexivity.
Qed.

Lemma run_lit (l : string) (p : list Re.atom) (caps : Re.captures)
      (s r : string) :
  Str.drop_prefix l s = Some r ->
  Re.run (Re.Lit l :: p) caps s = Re.run p caps r.
Proof. intros H. cbn [Re.run]. rewrite H. reflexivity. Qed.

Lemma run_many1_one (cls : ascii -> bool) (p : list Re.atom)
      (caps : Re.captures) (c : ascii) (r : string) :
  cls c = true -> stops cls r = true ->
  Re.run (Re.Many1 cls :: p) caps (String c r) = Re.run p caps r.
Proof.
  intros Hc Hr. cbn [Re.run Re.plus]. rewrite Hc.
  apply star_stops. exact Hr.
Qed.

Lemma run_group_exact (name : string) (cls : ascii -> bool)
      (p : list Re.atom) (caps : Re.captures) (c : ascii) (a b : string)
      (x : Re.captures) :
  cls c = true -> every_char cls a = true -> stops cls b = true ->
  Re.run p ((name, String c a) :: caps) b = Some x ->
  Re.run (Re.Group1 name cls :: p) caps (String c (a ++ b)) = Some x.
Proof.
  intros Hc Ha Hb Hx. cbn [Re.run Re.plus]. rewrite Hc.
  apply star_through; [exact Ha|].
  rewrite star_stops by exact Hb. rewrite append_nil_r. exact Hx.
Qed.

Lemma run_group_through (name : string) (cls : ascii -> bool)
      (p : list Re.atom) (caps : Re.captures) (c : ascii) (a b : string)
      (x : Re.captures) :
  cls c = true -> every_char cls a = true ->
  Re.star cls (fun taken rest =>
                 Re.run p ((name, String c (a ++ taken)) :: caps) rest) b
  = Some x ->
  Re.run (Re.Group1 name cls :: p) caps (String c (a ++ b)) = Some x.
Proof.
  intros Hc Ha Hx. cbn [Re.run Re.plus]. rewrite Hc.
  apply star_through; [exact Ha|]. exact Hx.
Qed.

Lemma canonical_header_captures (t0 c0 : ascii) (t cols : string) :
  every_char Chr.is_table_char (String t0 t) = true ->
  every_char Chr.is_dot (String c0 cols) = true ->
  Re.match_ COPY_START_RE (canonical_header (String t0 t) (String c0 cols))
  = Some [("cols", String c0 cols); ("table", String t0 t)].
Proof.
  intros Ht Hc. simpl in Ht, Hc.
  apply andb_true_iff in Ht as [Ht0 Ht]. apply andb_true_iff in Hc as [Hc0 Hc].
  unfold Re.match_, COPY_START_RE, canonical_header.
  cbn [String.append].
  erewrite run_lit by reflexivity.
  rewrite run_many1_one by reflexivity.
  erewrite run_lit by reflexivity.
  apply run_group_exact; [exact Ht0|exact Ht|reflexivity|].
  rewrite run_many1_one by reflexivity.
  erewrite run_lit by reflexivity.
  apply run_group_through; [exact Hc0|exact Hc|].
  vm_compute. rewrite append_nil_r. reflexivity.
Qed.

Lemma rstrip_drop (cls : ascii -> bool) (d : ascii) (x : string) :
  cls d = true ->
  Str.rstrip cls (x ++ String d "") = Str.rstrip cls x.
Proof.
  intros Hd. induction x as [|c x IH]; simpl; [rewrite Hd; reflexivity|].
  rewrite IH. reflexivity.
Qed.

Lemma rstrip_app_fixed (cls : ascii -> bool) (a b : string) :
  b <> "" -> Str.rstrip cls b = b ->
  Str.rstrip cls (a ++ b) = (a ++ b)%string.
Proof.
  intros Hb Hfix. induction a as [|c a IH]; [exact Hfix|].
  simpl. rewrite IH.
  destruct (a ++ b)%string as [|c' r] eqn:E; [|reflexivity].
  destruct a; simpl in E; [contradiction|discriminate].
Qed.

Lemma app_not_nil (a b : string) : b <> "" -> (a ++ b)%string <> "".
Proof.
  intros Hb. destruct a; simpl; [exact Hb|discriminate].
Qed.

Lemma line_of_canonical_header (t cols : string) :
  line_of (canonical_header t cols ++ Str.nl) = canonical_header t cols.
Proof.
  unfold line_of, Str.nl. rewrite rstrip_drop by reflexivity.
  unfold canonical_header.
  assert (N4 : ") FROM stdin;" <> "") by discriminate.
  pose proof (app_not_nil cols _ N4) as N3.
  pose proof (app_not_nil " (" _ N3) as N2.
  pose proof (app_not_nil t _ N2) as N1.
  repeat (apply rstrip_app_fixed; [assumption|]).
  reflexivity.
Qed.

(** X7: a header line in canonical form, for a table name of lower-case
    letters, digits and underscores and a column list of one line, is
    recognised by the reader as the header of that table and of no other,
    whatever the column list holds, and the count it declares is the number
    of comma-separated items of the list. *)
Theorem canonical_header_recognised (expected t cols : string) :
  t <> "" -> every_char Chr.is_table_char t = true ->
  cols <> "" -> every_char Chr.is_dot cols = true ->
  is_header expected (canonical_header t cols ++ Str.nl)
  = if String.eqb t expected
    then Some (List.length (Str.split Chr.comma cols))
    else None.
Proof.
  intros Ht Htc Hc Hcc. unfold is_header.
  rewrite line_of_canonical_header. unfold header_columns.
  destruct t as [|t0 t]; [contradiction|].
  destruct cols as [|c0 cols]; [contradiction|].
  rewrite (canonical_header_captures t0 c0 t cols Htc Hcc).
  change (Re.group "table" [("cols", String c0 cols); ("table", String t0 t)])
    with (String t0 t).
  change (Re.group "cols" [("cols", String c0 cols); ("table", String t0 t)])
    with (String c0 cols).
  destruct (String.eqb (String t0 t) expected); cbn [negb]; [|reflexivity].
  rewrite length_map. reflexivity.
Qed.

Lemma canonical_header_recognised_witness :
  is_header "business_location"
            (canonical_header "business_location" "id, name (x), business_id"
               ++ Str.nl)
  = Some 3%nat
  /\ is_header "business_business"
               (canonical_header "business_location"
                  "id, name (x), business_id" ++ Str.nl)
     = None.
Proof.
  split.
  - apply (canonical_header_recognised "business_location"
             "business_location" "id, name (x), business_id");
      [discriminate|reflexivity|discriminate|reflexivity].
  - apply (canonical_header_recognised "business_business"
             "business_location" "id, name (x), business_id");
      [discriminate|reflexivity|discriminate|reflexivity].
Defined.

(** ** Errors met by the resolver *)

Lemma for_each_app {A : Type} (body : A -> list string -> res A)
      (a b : list (list string)) (acc : A) :
  for_each body (a ++ b) acc
  = (acc' <- for_each body a acc ;; for_each body b acc').
Proof.
  revert acc. induction a as [|row a IH]; intros acc; [reflexivity|].
  cbn [app for_each]. destruct (body acc row) as [acc'|e]; cbn [bind];
    [apply IH|reflexivity].
Qed.

(** X8: when the reader dies on the businesses file, or on the locations
    file, after yielding rows the resolver can read, the resolver dies with
    the same error: block not found, block not terminated or column
    count. *)
Theorem resolver_reader_errors :
  (forall file name rows why,
      iter_copy_rows file "business_business" = MkRead rows (Died why) ->
      forallb readable_business rows = true ->
      find_business_id_by_name file name = die why)
  /\ (forall file business_id rows why,
         iter_copy_rows file "business_location" = MkRead rows (Died why) ->
         forallb readable_location rows = true ->
         load_locations_for_business file business_id = die why).
Proof.
  split.
  - intros file name rows why Hread Hok.
    unfold find_business_id_by_name, for_rows. rewrite Hread.
    cbn [yielded outcome].
    rewrite (for_each_match_business name rows [] Hok). reflexivity.
  - intros file business_id rows why Hread Hok.
    unfold load_locations_for_business, for_rows. rewrite Hread.
    cbn [yielded outcome].
    rewrite (for_each_keep_location business_id rows [] Hok). reflexivity.
Qed.

Lemma resolver_reader_errors_witness :
  find_business_id_by_name [raw_line ["-- empty dump"]] "Acme Foods"
  = die BlockNotFound
  /\ load_locations_for_business
       [locations_header; location_line "3" "Downtown" "7";
        raw_line ["4"; "short"]; t_end] 7
     = die (ColumnCount 2 7).
Proof.
  split.
  - apply (proj1 resolver_reader_errors _ "Acme Foods" []); reflexivity.
  - apply (proj2 resolver_reader_errors _ 7%Z
             [row_of (location_line "3" "Downtown" "7")]);
      vm_compute; reflexivity.
Defined.

(** X9: a row whose id, at position 0, is no integer stops either resolver
    function with ValueError as soon as it is met, after rows it could
    read, whatever follows it in the file and however the reader would have
    ended. *)
Theorem resolver_bad_id :
  (forall file name good bad more ending,
      iter_copy_rows file "business_business"
      = MkRead (good ++ bad :: more) ending ->
      forallb readable_business good = true ->
      bad <> [] -> is_int (nth 0 bad "") = false ->
      find_business_id_by_name file name = Raise ValueError)
  /\ (forall file business_id good bad more ending,
         iter_copy_rows file "business_location"
         = MkRead (good ++ bad :: more) ending ->
         forallb readable_location good = true ->
         bad <> [] -> is_int (nth 0 bad "") = false ->
         load_locations_for_business file business_id = Raise ValueError).
Proof.
  assert (Hint : forall bad, bad <> [] -> is_int (nth 0 bad "") = false ->
                             (r0 <- item bad 0 ;; int r0) = Raise ValueError).
  { intros [|f fs] Hne Hbad; [contradiction|]. cbn in *.
    unfold int, is_int in *. destruct (PyInt.parse f); [discriminate|].
    reflexivity. }
  split.
  - intros file name good bad more ending Hread Hok Hne Hbad.
    unfold find_business_id_by_name, for_rows. rewrite Hread.
    cbn [yielded]. rewrite for_each_app.
    rewrite (for_each_match_business name good [] Hok). cbn [bind for_each].
    unfold match_business at 1.
    specialize (Hint bad Hne Hbad).
    destruct (item bad 0) as [r0|e]; cbn [bind] in *;
      [rewrite Hint; reflexivity|injection Hint as ->; reflexivity].
  - intros file business_id good bad more ending Hread Hok Hne Hbad.
    unfold load_locations_for_business, for_rows. rewrite Hread.
    cbn [yielded]. rewrite for_each_app.
    rewrite (for_each_keep_location business_id good [] Hok).
    cbn [bind for_each]. unfold keep_location at 1.
    specialize (Hint bad Hne Hbad).
    destruct (item bad 0) as [r0|e]; cbn [bind] in *;
      [rewrite Hint; reflexivity|injection Hint as ->; reflexivity].
Qed.

Lemma resolver_bad_id_witness :
  find_business_id_by_name
    [businesses_header; business_line "7" "Acme Foods";
     business_line "x8" "Acme Foods"; raw_line ["cut"]] "Acme Foods"
  = Raise ValueError.
Proof.
  apply (proj1 resolver_bad_id _ "Acme Foods"
           [row_of (business_line "7" "Acme Foods")]
           (row_of (business_line "x8" "Acme Foods")) []
           (Died (ColumnCount 1 7))).
  - vm_compute. reflexivity.
  - reflexivity.
  - discriminate.
  - reflexivity.
Defined.

(** ** The loop body, row by row *)

Lemma parse_null : PyInt.parse "\N" = None.
Proof. reflexivity. Qed.

Section Body.
Variable locations : list Location.t.
Variable business_id : Z.
Variables nw kn : bool.
Variable pe : Z.

Let loc_by_id := make_loc_by_id locations.
Let writers := snd (open_writers locations).
Let body := export_row business_id loc_by_id writers nw kn pe.

Lemma export_row_typed (parts : list string) (st : scan_state) :
  scanning locations st ->
  if typed_row business_id parts
  then exists st', body parts st = Continue st'
  else body parts st = Stop ValueError.
Proof.
  intros Hst. unfold typed_row, null_or_int, is_int.
  destruct (String.eqb_spec (nth 11 parts "") "\N") as [E11|N11].
  { rewrite E11, parse_null. cbn [orb andb]. exists st.
    unfold body, export_row. rewrite E11. reflexivity. }
  apply String.eqb_neq in N11.
  destruct (PyInt.parse (nth 11 parts "")) as [b|] eqn:P11; cbn [orb andb].
  2:{ unfold body, export_row, int. rewrite N11, P11. reflexivity. }
  destruct (Z.eqb_spec b business_id) as [->|Hb].
  2:{ exists st. unfold body, export_row, int. rewrite N11, P11.
      apply Z.eqb_neq in Hb. rewrite Hb. reflexivity. }
  destruct (String.eqb_spec (nth 12 parts "") "\N") as [E12|N12].
  { cbn [orb]. exists st. unfold body, export_row, int.
    rewrite N11, P11, Z.eqb_refl, E12. reflexivity. }
  apply String.eqb_neq in N12.
  destruct (PyInt.parse (nth 12 parts "")) as [lid|] eqn:P12; cbn [orb].
  2:{ unfold body, export_row, int.
      rewrite N11, P11, Z.eqb_refl, N12, P12. reflexivity. }
  destruct (Dict.mem lid loc_by_id) eqn:Hmem.
  - apply DictFacts.mem_in_keys in Hmem.
    destruct (export_row_accepts locations business_id nw kn pe parts st lid
                Hst P11 P12 Hmem)
      as (loc & h & f & c & st' & _ & _ & _ & _ & _ & Hb & _).
    exists st'. exact Hb.
  - exists st. unfold body, export_row, int.
    rewrite N11, P11, Z.eqb_refl, N12, P12. fold loc_by_id. rewrite Hmem.
    reflexivity.
Qed.

Lemma export_rows_typed (rows : list (list string)) (st : scan_state) :
  scanning locations st ->
  forallb (typed_row business_id) rows = true ->
  exists st', export_rows body rows st = (st', None)
              /\ scanning locations st'.
Proof.
  revert st. induction rows as [|parts rows IH]; intros st Hst Hty.
  - exists st. split; [reflexivity|exact Hst].
  - simpl in Hty. apply andb_true_iff in Hty as [Hp Hrows].
    pose proof (export_row_typed parts st Hst) as Hb. rewrite Hp in Hb.
    destruct Hb as [st1 Hb]. cbn [export_rows]. rewrite Hb.
    apply IH; [|exact Hrows].
    exact (export_row_scanning locations business_id nw kn pe parts st st1
             Hst Hb).
Qed.

End Body.

(** X10: in any state of the scan the loop body raises on a row exactly when
    a foreign key it reads there is neither NULL nor an integer: the
    business id, or, for a row of the target business, the location id.
    What it raises then is ValueError; on every other row it goes on, and
    no look-up in its dictionaries ever misses. *)
Theorem export_row_raises (locations : list Location.t) (business_id : Z)
        (nw kn : bool) (pe : Z) (parts : list string) (st : scan_state) :
  scanning locations st ->
  let body := export_row business_id (make_loc_by_id locations)
                         (snd (open_writers locations)) nw kn pe in
  (typed_row business_id parts = true ->
   exists st', body parts st = Continue st')
  /\ (typed_row business_id parts = false ->
      body parts st = Stop ValueError)
  /\ (forall e, body parts st = Stop e -> e = ValueError).
Proof.
  intros Hst body.
  pose proof (export_row_typed locations business_id nw kn pe parts st Hst)
    as H.
  fold body in H. destruct (typed_row business_id parts).
  - split; [intros _; exact H|]. split; [discriminate|].
    intros e He. destruct H as [st' H]. rewrite H in He. discriminate.
  - split; [discriminate|]. split; [intros _; exact H|].
    intros e He. rewrite H in He. injection He as <-. reflexivity.
Qed.

Lemma export_row_raises_witness :
  let body := export_row 7 (make_loc_by_id two_locations)
                         (snd (open_writers two_locations)) true false 0 in
  (exists st', body (row_of (review_line "r1" "good" "7" "3"))
                    (start_state two_locations) = Continue st')
  /\ body (row_of (review_line "r1" "good" "7" "x3"))
          (start_state two_locations) = Stop ValueError.
Proof.
  intros body. split.
  - apply (proj1 (export_row_raises two_locations 7 true false 0
                    (row_of (review_line "r1" "good" "7" "3"))
                    (start_state two_locations)
                    (start_scanning two_locations))).
    reflexivity.
  - apply (proj1 (proj2 (export_row_raises two_locations 7 true false 0
                           (row_of (review_line "r1" "good" "7" "x3"))
                           (start_state two_locations)
                           (start_scanning two_locations)))).
    reflexivity.
Defined.

(** ** Progress notices and the line of a row-shape error *)



Section ScanLines.
Variable business_id : Z.
Variable loc_by_id : Dict.t Location.t.
Variable writers : Dict.t nat.
Variables nw kn : bool.
Variable pe : Z.

Let scan := scan_reviews business_id loc_by_id writers nw kn pe.
Let body := export_row business_id loc_by_id writers nw kn pe.

Lemma scan_reviews_bad_row (rows : list string) (bad : string)
      (rest : list string) (line_no : nat) (st st' : scan_state) :
  Forall (fun raw => is_terminator raw = false) rows ->
  Forall (fun raw => List.length (row_of raw) = 17%nat) rows ->
  is_terminator bad = false ->
  List.length (row_of bad) <> 17%nat ->
  export_rows body (map row_of rows) st = (st', None) ->
  scan true line_no (rows ++ bad :: rest) st
  = (st', Some (SystemExit
                  (ReviewsColumnCount (line_no + List.length rows + 1)
                                      (List.length (row_of bad))))).
Proof.
  intros Hrows. revert line_no st.
  induction Hrows as [|raw rows Hraw _ IH]; intros line_no st Hn Hbad Hlen Hex.
  - cbn [map export_rows] in Hex. injection Hex as <-.
    unfold scan. cbn [app scan_reviews negb List.length].
    unfold is_terminator in Hbad. rewrite Hbad. fold (row_of bad).
    apply Nat.eqb_neq in Hlen. rewrite Hlen. cbn [negb].
    replace (line_no + 0 + 1)%nat with (S line_no) by lia. reflexivity.
  - inversion Hn as [|? ? Hl Hn']; subst.
    cbn [map export_rows] in Hex.
    unfold scan in *. cbn [app scan_reviews negb List.length].
    unfold is_terminator in Hraw. rewrite Hraw.
    fold (row_of raw). rewrite Hl. cbn [Nat.eqb negb].
    fold body. destruct (body (row_of raw) st) as [st1|e]; [|discriminate].
    rewrite (IH (S line_no) st1 Hn' Hbad Hlen Hex).
    replace (S line_no + List.length rows + 1)%nat
      with (line_no + S (List.length rows) + 1)%nat by lia.
    reflexivity.
Qed.
End ScanLines.

(** X12: when the block of the reviews file holds, after rows of 17 fields
    with typed foreign keys, a line that has not 17 tab-separated fields,
    [export_reviews] dies with the row-shape error that names the number of
    that line in the file, counted from 1, and its field count. *)
Theorem export_reviews_row_shape_line (business_id : Z)
        (locations : list Location.t) (nw kn : bool) (pe : Z)
        (pre : list string) (hdr : string) (rows : list string)
        (bad : string) (rest : list string) :
  Forall (fun raw => opens_reviews raw = false) pre ->
  opens_reviews hdr = true ->
  Forall (fun raw => is_terminator raw = false) rows ->
  Forall (fun raw => List.length (row_of raw) = 17%nat) rows ->
  forallb (typed_row business_id) (map row_of rows) = true ->
  is_terminator bad = false ->
  List.length (row_of bad) <> 17%nat ->
  result (export_reviews (pre ++ hdr :: rows ++ bad :: rest) business_id
                         locations nw kn pe)
  = die (ReviewsColumnCount (List.length pre + List.length rows + 2)
                            (List.length (row_of bad))).
Proof.
  intros Hpre Hhdr Hrows Hn Hty Hbad Hlen.
  destruct (export_rows_typed locations business_id nw kn pe
              (map row_of rows) (start_state locations)
              (start_scanning locations) Hty) as (st' & Hex & _).
  unfold export_reviews.
  rewrite scan_reviews_skip by exact Hpre.
  cbn [scan_reviews negb]. unfold opens_reviews in Hhdr. rewrite Hhdr.
  rewrite (scan_reviews_bad_row _ _ _ nw kn pe rows bad rest _ _ st'
             Hrows Hn Hbad Hlen Hex).
  cbn [after_scan result]. unfold die.
  replace (S (List.length pre + 0) + List.length rows + 1)%nat
    with (List.length pre + List.length rows + 2)%nat by lia.
  reflexivity.
Qed.

Lemma export_reviews_row_shape_line_witness :
  result (export_reviews
            ([raw_line ["-- reviews"]]
               ++ reviews_header
               :: [review_line "r1" "good" "7" "3"]
               ++ raw_line ["x"; "y"] :: [t_end])
            7 two_locations true false 0)
  = die (ReviewsColumnCount 4 2).
Proof.
  apply (export_reviews_row_shape_line 7 two_locations true false 0
           [raw_line ["-- reviews"]] reviews_header
           [review_line "r1" "good" "7" "3"] (raw_line ["x"; "y"]) [t_end]).
  - repeat constructor.
  - reflexivity.
  - repeat constructor.
  - repeat constructor.
  - reflexivity.
  - reflexivity.
  - vm_compute. discriminate.
Defined.

(** ** The content of the output files *)

Lemma filter_snoc {A : Type} (p : A -> bool) (l : list A) (x : A) :
  filter p (l ++ [x]) = if p x then filter p l ++ [x] else filter p l.
Proof.
  rewrite filter_app. simpl. destruct (p x); [reflexivity|apply app_nil_r].
Qed.

Lemma dict_get_mid {V : Type} (d1 d2 : Dict.t V) (k : Z) (v : V) :
  ~ In k (Dict.keys d1) -> Dict.get k (d1 ++ (k, v) :: d2) = Some v.
Proof.
  induction d1 as [|[k' v'] d1 IH]; simpl; intros Hout.
  - rewrite Z.eqb_refl. reflexivity.
  - destruct (Z.eqb_spec k' k) as [->|_]; [tauto|]. apply IH. tauto.
Qed.

Lemma dict_set_mid {V : Type} (d1 d2 : Dict.t V) (k : Z) (v w : V) :
  ~ In k (Dict.keys d1) ->
  Dict.set k w (d1 ++ (k, v) :: d2) = d1 ++ (k, w) :: d2.
Proof.
  induction d1 as [|[k' v'] d1 IH]; simpl; intros Hout.
  - rewrite Z.eqb_refl. reflexivity.
  - destruct (Z.eqb_spec k' k) as [->|_]; [tauto|]. f_equal. apply IH. tauto.
Qed.

Lemma make_loc_by_id_get (locs : list Location.t) (l : Location.t) :
  NoDup (map Location.id locs) -> In l locs ->
  Dict.get (Location.id l) (make_loc_by_id locs) = Some l.
Proof.
  unfold make_loc_by_id.
  assert (Keep : forall xs (d : Dict.t Location.t) k,
             ~ In k (map Location.id xs) ->
             Dict.get k (fold_left (fun d l => Dict.set (Location.id l) l d)
                                   xs d)
             = Dict.get k d).
  { induction xs as [|x xs IH]; intros d k Hout; [reflexivity|].
    cbn [fold_left]. simpl in Hout. rewrite IH by tauto.
    apply DictFacts.get_set_other. intros E. apply Hout. left. exact E. }
  generalize (@nil (Z * Location.t)) as d.
  induction locs as [|x xs IH]; intros d Hnd Hin; [contradiction|].
  cbn [fold_left]. simpl in Hnd. inversion Hnd as [|? ? Hout Hnd']; subst.
  destruct Hin as [->|Hin].
  - rewrite Keep by exact Hout. apply DictFacts.get_set_same.
  - apply IH; assumption.
Qed.

Section Content.
Variable locations : list Location.t.
Variable business_id : Z.
Variables nw kn : bool.
Variable pe : Z.
Hypothesis distinct : NoDup (map Location.id locations).

Let loc_by_id := make_loc_by_id locations.
Let writers := snd (open_writers locations).
Let body := export_row business_id loc_by_id writers nw kn pe.
Let file_of := expected_file nw kn business_id.
Let count_of_loc (done : list (list string)) (loc : Location.t) : Z * Z :=
  (Location.id loc, expected_count business_id done loc).

(** A row no known location accepts leaves the files and counters as they
    were. *)
Lemma export_row_skips (parts : list string) (st st' : scan_state) :
  (forall lid, PyInt.parse (nth 11 parts "") = Some business_id ->
               PyInt.parse (nth 12 parts "") = Some lid ->
               Dict.mem lid loc_by_id = true -> False) ->
  body parts st = Continue st' -> st' = st.
Proof.
  intros Hno. unfold body, export_row, int.
  destruct (String.eqb (nth 11 parts "") "\N"); [intros [= <-]; reflexivity|].
  destruct (PyInt.parse (nth 11 parts "")) as [b|]; [|discriminate].
  destruct (Z.eqb_spec b business_id) as [->|_]; cbn [negb];
    [|intros [= <-]; reflexivity].
  destruct (String.eqb (nth 12 parts "") "\N"); [intros [= <-]; reflexivity|].
  destruct (PyInt.parse (nth 12 parts "")) as [lid|]; [|discriminate].
  destruct (Dict.mem lid loc_by_id) eqn:Hmem; cbn [negb];
    [|intros [= <-]; reflexivity].
  exfalso. exact (Hno lid eq_refl eq_refl Hmem).
Qed.

Lemma unaccepted_everywhere (parts : list string) (done : list (list string)) :
  (forall lid, PyInt.parse (nth 11 parts "") = Some business_id ->
               PyInt.parse (nth 12 parts "") = Some lid ->
               Dict.mem lid loc_by_id = true -> False) ->
  map (file_of (done ++ [parts])) locations = map (file_of done) locations
  /\ map (count_of_loc (done ++ [parts])) locations
     = map (count_of_loc done) locations.
Proof.
  intros Hno.
  assert (Hacc : forall loc, In loc locations ->
                             accepts business_id (Location.id loc) parts
                             = false).
  { intros loc Hin. unfold accepts.
    destruct (PyInt.parse (nth 11 parts "")) as [b|] eqn:P11; [|reflexivity].
    destruct (PyInt.parse (nth 12 parts "")) as [l|] eqn:P12; [|reflexivity].
    destruct (Z.eqb_spec b business_id) as [->|_]; [|reflexivity].
    destruct (Z.eqb_spec l (Location.id loc)) as [->|_]; [|reflexivity].
    exfalso. apply (Hno (Location.id loc) eq_refl eq_refl).
    apply DictFacts.mem_in_keys, make_loc_by_id_keys, in_map, Hin. }
  split; apply map_ext_in; intros loc Hin;
    unfold file_of, count_of_loc, expected_file, exported_rows, expected_count;
    rewrite filter_snoc, (Hacc loc Hin); reflexivity.
Qed.

Lemma export_row_content (done : list (list string)) (parts : list string)
      (st st' : scan_state) :
  scanning locations st ->
  files st = map (file_of done) locations ->
  counts st = map (count_of_loc done) locations ->
  body parts st = Continue st' ->
  files st' = map (file_of (done ++ [parts])) locations
  /\ counts st' = map (count_of_loc (done ++ [parts])) locations.
Proof.
  intros Hst Hfiles Hcounts Hbody.
  destruct (PyInt.parse (nth 11 parts "")) as [b|] eqn:P11.
  2:{ assert (Hno : forall lid, PyInt.parse (nth 11 parts "") = Some business_id ->
                                PyInt.parse (nth 12 parts "") = Some lid ->
                                Dict.mem lid loc_by_id = true -> False)
        by (intros lid H; congruence).
      rewrite (export_row_skips parts st st' Hno Hbody).
      destruct (unaccepted_everywhere parts done Hno) as [-> ->]. auto. }
  destruct (Z.eq_dec b business_id) as [->|Hb].
  2:{ assert (Hno : forall lid, PyInt.parse (nth 11 parts "") = Some business_id ->
                                PyInt.parse (nth 12 parts "") = Some lid ->
                                Dict.mem lid loc_by_id = true -> False)
        by (intros lid H; congruence).
      rewrite (export_row_skips parts st st' Hno Hbody).
      destruct (unaccepted_everywhere parts done Hno) as [-> ->]. auto. }
  destruct (PyInt.parse (nth 12 parts "")) as [lid|] eqn:P12.
  2:{ assert (Hno : forall lid, PyInt.parse (nth 11 parts "") = Some business_id ->
                                PyInt.parse (nth 12 parts "") = Some lid ->
                                Dict.mem lid loc_by_id = true -> False)
        by (intros lid _ H; congruence).
      rewrite (export_row_skips parts st st' Hno Hbody).
      destruct (unaccepted_everywhere parts done Hno) as [-> ->]. auto. }
  destruct (Dict.mem lid loc_by_id) eqn:Hmem.
  2:{ assert (Hno : forall lid, PyInt.parse (nth 11 parts "") = Some business_id ->
                                PyInt.parse (nth 12 parts "") = Some lid ->
                                Dict.mem lid loc_by_id = true -> False)
        by (intros lid' _ H H'; congruence).
      rewrite (export_row_skips parts st st' Hno Hbody).
      destruct (unaccepted_everywhere parts done Hno) as [-> ->]. auto. }
  apply DictFacts.mem_in_keys in Hmem.
  destruct (export_row_accepts locations business_id nw kn pe parts st lid
              Hst P11 P12 Hmem)
    as (loc & h & f & c & st2 & Hloc & _ & Hf & Hid & Hc & Hb & Hcs & Hfs & _).
  fold loc_by_id writers body in Hloc, Hb. rewrite Hb in Hbody.
  injection Hbody as <-.
  rewrite Hfiles in Hf. rewrite nth_error_map in Hf.
  destruct (nth_error locations h) as [l|] eqn:Hl; [|discriminate].
  injection Hf as <-. cbn [file_of expected_file opened_for] in Hid.
  subst lid.
  assert (Hin : In l locations) by (eapply nth_error_In; exact Hl).
  pose proof (make_loc_by_id_get locations l distinct Hin) as Hget.
  fold loc_by_id in Hget. rewrite Hget in Hloc. injection Hloc as <-.
  destruct (nth_error_split locations h Hl) as (l1 & l2 & Hsplit & Hlen).
  pose proof distinct as Hnd. rewrite Hsplit, map_app in Hnd. cbn [map] in Hnd.
  pose proof (NoDup_remove_2 _ _ _ Hnd) as Hout.
  assert (Hother : forall x, In x l1 \/ In x l2 ->
                             accepts business_id (Location.id x) parts = false).
  { intros x Hx. unfold accepts. rewrite P11, P12, Z.eqb_refl. cbn [andb].
    apply Z.eqb_neq. intros E. apply Hout. apply in_or_app.
    destruct Hx as [Hx|Hx]; [left|right]; rewrite E; apply in_map, Hx. }
  assert (Hself : accepts business_id (Location.id l) parts = true).
  { unfold accepts. rewrite P11, P12, !Z.eqb_refl. reflexivity. }
  assert (Hfiles' : forall rows,
             map (file_of rows) locations
             = map (file_of rows) l1 ++ file_of rows l :: map (file_of rows) l2)
    by (intros rows; rewrite Hsplit, map_app; reflexivity).
  assert (Hcounts' : forall rows,
             map (count_of_loc rows) locations
             = map (count_of_loc rows) l1
                   ++ (Location.id l, expected_count business_id rows l)
                   :: map (count_of_loc rows) l2)
    by (intros rows; rewrite Hsplit, map_app; reflexivity).
  split.
  - rewrite Hfs, Hfiles, !Hfiles'.
    rewrite <- Hlen, <- (length_map (file_of done) l1), update_app_here.
    f_equal; [|f_equal].
    + apply map_ext_in. intros x Hx.
      unfold file_of, expected_file, exported_rows.
      rewrite filter_snoc, (Hother x (or_introl Hx)). reflexivity.
    + unfold file_of, expected_file, exported_rows, writerow.
      cbn [opened_for pending flushed closes].
      rewrite filter_snoc, Hself, map_app. reflexivity.
    + apply map_ext_in. intros x Hx.
      unfold file_of, expected_file, exported_rows.
      rewrite filter_snoc, (Hother x (or_intror Hx)). reflexivity.
  - assert (Hl1 : ~ In (Location.id l)
                       (Dict.keys (map (count_of_loc done) l1))).
    { unfold Dict.keys. rewrite map_map. cbn [count_of_loc fst].
      intros Hk. apply Hout, in_or_app. left. exact Hk. }
    rewrite Hcounts, Hcounts' in Hc.
    rewrite (dict_get_mid _ _ _ _ Hl1) in Hc. injection Hc as <-.
    rewrite Hcs, Hcounts, !Hcounts'.
    rewrite (dict_set_mid _ _ _ _ _ Hl1).
    f_equal; [|f_equal].
    + apply map_ext_in. intros x Hx. unfold count_of_loc, expected_count.
      rewrite filter_snoc, (Hother x (or_introl Hx)). reflexivity.
    + unfold expected_count.
      rewrite filter_snoc, Hself, length_app. cbn [List.length].
      f_equal. lia.
    + apply map_ext_in. intros x Hx. unfold count_of_loc, expected_count.
      rewrite filter_snoc, (Hother x (or_intror Hx)). reflexivity.
Qed.
End Content.

Lemma export_rows_content (locations : list Location.t) (business_id : Z)
      (nw kn : bool) (pe : Z) (rows : list (list string)) :
  NoDup (map Location.id locations) ->
  forall (done : list (list string)) (st : scan_state),
    scanning locations st ->
    files st = map (expected_file nw kn business_id done) locations ->
    counts st
    = map (fun loc => (Location.id loc, expected_count business_id done loc))
          locations ->
    forallb (typed_row business_id) rows = true ->
    exists st',
      export_rows (export_row business_id (make_loc_by_id locations)
                              (snd (open_writers locations)) nw kn pe)
                  rows st = (st', None)
      /\ scanning locations st'
      /\ files st'
         = map (expected_file nw kn business_id (done ++ rows)) locations
      /\ counts st'
         = map (fun loc => (Location.id loc,
                            expected_count business_id (done ++ rows) loc))
               locations.
Proof.
  intros Hnd. induction rows as [|parts rows IH];
    intros done st Hst Hfiles Hcounts Hty.
  - exists st. rewrite app_nil_r. auto.
  - simpl in Hty. apply andb_true_iff in Hty as [Hp Hrows].
    pose proof (export_row_typed locations business_id nw kn pe parts st Hst)
      as Hb.
    rewrite Hp in Hb. destruct Hb as [st1 Hb].
    pose proof (export_row_scanning locations business_id nw kn pe parts
                  st st1 Hst Hb) as Hst1.
    destruct (export_row_content locations business_id nw kn pe Hnd done
                parts st st1 Hst Hfiles Hcounts Hb) as [Hf1 Hc1].
    destruct (IH (done ++ [parts]) st1 Hst1 Hf1 Hc1 Hrows)
      as (st' & Hex & Hst' & Hf' & Hc').
    exists st'. cbn [export_rows]. rewrite Hb.
    rewrite <- app_assoc in Hf', Hc'. auto.
Qed.

Lemma count_of_expected (locations : list Location.t) (f : Location.t -> Z)
      (loc : Location.t) :
  NoDup (map Location.id locations) -> In loc locations ->
  count_of (map (fun l => (Location.id l, f l)) locations) (Location.id loc)
  = f loc.
Proof.
  intros Hnd Hin. apply in_split in Hin as (l1 & l2 & ->).
  rewrite map_app in Hnd. cbn [map] in Hnd.
  apply NoDup_remove_2 in Hnd.
  unfold count_of. rewrite map_app. cbn [map].
  rewrite dict_get_mid; [reflexivity|].
  unfold Dict.keys. rewrite map_map. cbn [fst].
  intros Hk. apply Hnd, in_or_app. left. exact Hk.
Qed.

(** X13: for locations with distinct ids and a reviews file whose block is
    terminated and made of rows of 17 fields with typed foreign keys,
    [export_reviews] ends normally and leaves, for each location in turn,
    one closed file that holds the header row and then the rows of the
    block of the target business and of that location, in the order of the
    block and nothing else; the counts it prints are the numbers of those
    rows and the total is their sum. *)
Theorem export_reviews_files (business_id : Z) (locations : list Location.t)
        (nw kn : bool) (pe : Z) (pre : list string) (hdr : string)
        (rows : list string) (term : string) (rest : list string) :
  NoDup (map Location.id locations) ->
  Forall (fun raw => opens_reviews raw = false) pre ->
  opens_reviews hdr = true ->
  Forall (fun raw => is_terminator raw = false) rows ->
  Forall (fun raw => List.length (row_of raw) = 17%nat) rows ->
  is_terminator term = true ->
  forallb (typed_row business_id) (map row_of rows) = true ->
  let r := export_reviews (pre ++ hdr :: rows ++ term :: rest) business_id
                          locations nw kn pe in
  let block := map row_of rows in
  result r = Ok None
  /\ files_after r
     = map (fun loc =>
              MkFile loc []
                     (header_row :: exported_rows nw kn business_id block loc)
                     1)
           locations
  /\ exists progress,
      printed_lines r
      = progress
          ++ Done (sum (map (expected_count business_id block) locations))
          :: map (fun loc =>
                    LocationCount (Location.id loc) (Location.name loc)
                                  (expected_count business_id block loc))
                 locations.
Proof.
  intros Hnd Hpre Hhdr Hrows Hn Hterm Hty r block. subst r.
  assert (Hf0 : files (start_state locations)
                = map (expected_file nw kn business_id []) locations).
  { unfold start_state, open_writers. cbn [files].
    rewrite open_writers_from_files. reflexivity. }
  assert (Hc0 : counts (start_state locations)
                = map (fun loc => (Location.id loc,
                                   expected_count business_id [] loc))
                      locations).
  { unfold start_state, zero_counts. cbn [counts].
    rewrite (make_loc_by_id_keys_distinct locations Hnd), map_map.
    reflexivity. }
  destruct (export_rows_content locations business_id nw kn pe block Hnd []
              (start_state locations) (start_scanning locations) Hf0 Hc0 Hty)
    as (st' & Hex & Hst' & Hf' & Hc').
  cbn [app] in Hf', Hc'.
  unfold export_reviews.
  rewrite scan_reviews_skip by exact Hpre.
  cbn [scan_reviews negb]. unfold opens_reviews in Hhdr. rewrite Hhdr.
  rewrite scan_reviews_rows by assumption.
  fold block. rewrite Hex. cbn [after_scan result files_after printed_lines].
  split; [reflexivity|]. split.
  - rewrite (finally_closes locations st' Hnd Hst'), Hf', map_map.
    reflexivity.
  - exists (log st'). unfold summary. rewrite Hc'.
    unfold Dict.values. rewrite map_map. cbn [snd]. do 2 f_equal.
    apply map_ext_in. intros loc Hin.
    rewrite (count_of_expected locations (expected_count business_id block)
               loc Hnd Hin).
    reflexivity.
Qed.

Lemma export_reviews_files_witness :
  let r := export_reviews sample_reviews 7 two_locations true false 0 in
  result r = Ok None
  /\ files_after r
     = [ MkFile (Location.mk 3 "Downtown" 7) []
           [ header_row;
             [ CInt 3; CStr "Downtown"; CStr "r1"; CStr "2020-01-01";
               CStr "5"; CStr "google"; CStr "Ann"; CStr "good"; CStr "";
               CStr "http://x" ] ] 1;
         MkFile (Location.mk 9 "Uptown" 7) []
           [ header_row;
             [ CInt 9; CStr "Uptown"; CStr "r2"; CStr "2020-01-01";
               CStr "5"; CStr "google"; CStr "Ann"; CStr "fine food";
               CStr ""; CStr "http://x" ] ] 1 ]
  /\ exists progress,
      printed_lines r
      = progress
          ++ [Done 2; LocationCount 3 "Downtown" 1; LocationCount 9 "Uptown" 1].
Proof.
  apply (export_reviews_files 7 two_locations true false 0
           [raw_line ["-- reviews"]] reviews_header
           [review_line "r1" "good" "7" "3";
            review_line "r2" "fine\tfood" "7" "9";
            review_line "r3" "other" "8" "3";
            review_line "r4" "nowhere" "7" "\N";
            review_line "r5" "unknown" "7" "4"] t_end []).
  - apply two_locations_distinct.
  - repeat constructor.
  - reflexivity.
  - repeat constructor.
  - repeat constructor.
  - reflexivity.
  - reflexivity.
Defined.

(** ** The whole run *)

Lemma for_each_match_business_names (name : string)
      (rows : list (list string)) :
  forall acc ms,
    Forall (fun b => Business.name b = name) acc ->
    for_each (match_business name) rows acc = Ok ms ->
    Forall (fun b => Business.name b = name) ms.
Proof.
  induction rows as [|row rows IH]; intros acc ms Hacc.
  - intros [= <-]. exact Hacc.
  - cbn [for_each]. unfold match_business at 1.
    destruct (item row 0) as [r0|]; cbn [bind]; [|discriminate].
    destruct (int r0) as [bid|]; cbn [bind]; [|discriminate].
    destruct (item row 2) as [r2|]; cbn [bind]; [|discriminate].
    destruct (String.eqb_spec (decode_copy_text r2) name) as [E|_];
      cbn [bind]; apply IH; [|exact Hacc].
    apply Forall_app. split; [exact Hacc|]. repeat constructor. exact E.
Qed.

Lemma find_business_id_by_name_name (file : list string) (name : string)
      (biz : Business.t) :
  find_business_id_by_name file name = Ok biz -> Business.name biz = name.
Proof.
  unfold find_business_id_by_name, for_rows.
  destruct (for_each (match_business name)
                     (yielded (iter_copy_rows file "business_business")) [])
    as [ms|] eqn:E; cbn [bind]; [|discriminate].
  pose proof (for_each_match_business_names name _ [] ms (Forall_nil _) E)
    as Hms.
  destruct (outcome (iter_copy_rows file "business_business"));
    cbn [bind die]; [|discriminate].
  destruct ms as [|m [|m' ms]].
  - destruct (for_each (close_match name) _ []); cbn [bind];
      [|discriminate].
    destruct (outcome (iter_copy_rows file "business_business"));
      cbn [bind die]; discriminate.
  - intros [= <-]. inversion Hms; assumption.
  - discriminate.
Qed.

Lemma for_each_keep_location_owned (business_id : Z)
      (rows : list (list string)) :
  forall acc locs,
    Forall (fun l => Location.business_id l = business_id) acc ->
    for_each (keep_location business_id) rows acc = Ok locs ->
    Forall (fun l => Location.business_id l = business_id) locs.
Proof.
  induction rows as [|row rows IH]; intros acc locs Hacc.
  - intros [= <-]. exact Hacc.
  - cbn [for_each]. unfold keep_location at 1.
    destruct (item row 0) as [r0|]; cbn [bind]; [|discriminate].
    destruct (int r0) as [lid|]; cbn [bind]; [|discriminate].
    destruct (item row 2) as [r2|]; cbn [bind]; [|discriminate].
    destruct (item row 3) as [r3|]; cbn [bind]; [|discriminate].
    destruct (int r3) as [bid|]; cbn [bind]; [|discriminate].
    destruct (Z.eqb_spec bid business_id) as [E|_];
      cbn [bind]; apply IH; [|exact Hacc].
    apply Forall_app. split; [exact Hacc|]. repeat constructor. exact E.
Qed.

Lemma load_locations_for_business_owned_sorted (file : list string)
      (business_id : Z) (locs : list Location.t) :
  load_locations_for_business file business_id = Ok locs ->
  Forall (fun l => Location.business_id l = business_id) locs
  /\ Sorted id_le locs.
Proof.
  unfold load_locations_for_business, for_rows.
  destruct (for_each (keep_location business_id)
                     (yielded (iter_copy_rows file "business_location")) [])
    as [ls|] eqn:E; cbn [bind]; [|discriminate].
  pose proof (for_each_keep_location_owned business_id _ [] ls
                (Forall_nil _) E) as Hls.
  destruct (outcome (iter_copy_rows file "business_location"));
    cbn [bind die]; [|discriminate].
  intros [= <-]. split; [|apply sorted_by_id_sorted].
  eapply Permutation_Forall; [|exact Hls].
  symmetry. apply sorted_by_id_perm.
Qed.

(** X14: a run of [main] that returns a value returns 0, and then the three
    input files exist, the business found bears exactly the name asked for,
    the locations exported are in ascending order of id, at least one, and
    all owned by that business, and the export itself raised nothing. *)
Theorem main_success (a : args) (i : inputs) (z : Z) :
  result (main a i) = Ok z ->
  z = 0%Z
  /\ exists bf lf rf biz locs,
      BUSINESS_SQL i = Some bf /\ LOCATION_SQL i = Some lf
      /\ REVIEWS_SQL i = Some rf
      /\ find_business_id_by_name bf (business_name a) = Ok biz
      /\ Business.name biz = business_name a
      /\ load_locations_for_business lf (Business.id biz) = Ok locs
      /\ locs <> []
      /\ Forall (fun l => Location.business_id l = Business.id biz) locs
      /\ Sorted id_le locs
      /\ result (export_reviews rf (Business.id biz) locs
                                (negb (no_normalize_whitespace a))
                                (arg_keep_newlines a) (arg_progress_every a))
         = Ok None.
Proof.
  unfold main.
  destruct (BUSINESS_SQL i) as [bf|]; [|discriminate].
  destruct (LOCATION_SQL i) as [lf|]; [|discriminate].
  destruct (REVIEWS_SQL i) as [rf|]; [|discriminate].
  destruct (find_business_id_by_name bf (business_name a)) as [biz|] eqn:Hb;
    [|discriminate].
  destruct (load_locations_for_business lf (Business.id biz)) as [locs|]
    eqn:Hl; [|discriminate].
  destruct (load_locations_for_business_owned_sorted lf _ locs Hl)
    as [Hown Hsorted].
  destruct locs as [|l locs]; [discriminate|].
  cbn [result].
  destruct (result (export_reviews rf (Business.id biz) (l :: locs)
                                   (negb (no_normalize_whitespace a))
                                   (arg_keep_newlines a)
                                   (arg_progress_every a)))
    as [v|e] eqn:Hr; [|discriminate].
  intros [= <-]. split; [reflexivity|].
  exists bf, lf, rf, biz, (l :: locs).
  repeat (split; [first [reflexivity|assumption|discriminate
                        |exact (find_business_id_by_name_name _ _ _ Hb)]|]).
  assert (Hv : v = None).
  { revert Hr. unfold export_reviews, after_scan.
    destruct (scan_reviews _ _ _ _ _ _ _ _ _ _) as [st [e|]];
      cbn [result]; [discriminate|]. intros [= <-]. reflexivity. }
  rewrite Hr, Hv. reflexivity.
Qed.

Lemma main_success_witness :
  exists biz locs,
    find_business_id_by_name sample_businesses "Acme Foods" = Ok biz
    /\ Business.name biz = "Acme Foods"
    /\ load_locations_for_business sample_locations (Business.id biz) = Ok locs
    /\ locs <> []
    /\ Forall (fun l => Location.business_id l = Business.id biz) locs.
Proof.
  destruct (main_success sample_args sample_inputs 0 eq_refl)
    as (_ & bf & lf & rf & biz & locs & Hbf & Hlf & _ & Hb & Hn & Hl & Hne
        & Hown & _).
  injection Hbf as <-. injection Hlf as <-.
  exists biz, locs. auto.
Defined.

(** ** Decoding what COPY escaped *)

Section Unescape.
Variable code : ascii -> option ascii.
Hypothesis letters : forall c y, code c = Some y -> y <> backslash.

Lemma starts_two (a b c d : ascii) (r : string) :
  Str.startswith (String a (String b "")) (String c (String d r))
  = Ascii.eqb a c && Ascii.eqb b d.
Proof.
  unfold Str.startswith. cbn [Str.drop_prefix].
  destruct (Ascii.eqb a c); [|reflexivity].
  destruct (Ascii.eqb b d); reflexivity.
Qed.

Lemma starts_other (a : ascii) (old : string) (c : ascii) (r : string) :
  Ascii.eqb a c = false ->
  Str.startswith (String a old) (String c r) = false.
Proof.
  intros H. unfold Str.startswith. cbn [Str.drop_prefix]. rewrite H.
  reflexivity.
Qed.

Lemma replace_unescapes (a x : ascii) (s : string) :
  code a = Some x ->
  (forall c, code c = Some x -> c = a) ->
  every_char (is_not backslash) s = true ->
  Str.replace (String backslash (String x "")) (String a "") (escaped code s)
  = escaped (uncoded a code) s.
Proof.
  intros Ha Honly. unfold Str.replace.
  induction s as [|c r IH]; [reflexivity|].
  cbn [every_char escaped]. intros H. apply andb_true_iff in H as [Hc Hr].
  specialize (IH Hr).
  unfold is_not in Hc. apply negb_true_iff in Hc.
  unfold uncoded at 1.
  destruct (code c) as [y|] eqn:Ec.
  - cbn [Str.replace_from]. rewrite starts_two, Ascii.eqb_refl. cbn [andb].
    destruct (Ascii.eqb_spec x y) as [<-|Hxy].
    + rewrite (Honly c Ec), Ascii.eqb_refl.
      cbn [String.length Nat.sub String.append Str.replace_from].
      rewrite IH. reflexivity.
    + destruct (Ascii.eqb_spec c a) as [->|_]; [congruence|].
      f_equal. cbn [Str.replace_from].
      rewrite starts_other; [rewrite IH; reflexivity|].
      apply Ascii.eqb_neq. intros E. exact (letters c y Ec (eq_sym E)).
  - cbn [Str.replace_from].
    rewrite starts_other by (rewrite Ascii.eqb_sym; exact Hc).
    destruct (Ascii.eqb c a); rewrite IH; reflexivity.
Qed.

Lemma replace_no_double (s : string) :
  every_char (is_not backslash) s = true ->
  Str.replace (String backslash (String backslash "")) (String backslash "")
              (escaped code s)
  = escaped code s.
Proof.
  unfold Str.replace. induction s as [|c r IH]; [reflexivity|].
  cbn [every_char escaped]. intros H. apply andb_true_iff in H as [Hc Hr].
  specialize (IH Hr).
  unfold is_not in Hc. apply negb_true_iff in Hc.
  destruct (code c) as [y|] eqn:Ec.
  - assert (Hy : Ascii.eqb backslash y = false).
    { apply Ascii.eqb_neq. intros E. exact (letters c y Ec (eq_sym E)). }
    cbn [Str.replace_from]. rewrite starts_two, Ascii.eqb_refl, Hy.
    cbn [andb]. f_equal. cbn [Str.replace_from].
    rewrite starts_other by exact Hy. rewrite IH. reflexivity.
  - cbn [Str.replace_from].
    rewrite starts_other by (rewrite Ascii.eqb_sym; exact Hc).
    rewrite IH. reflexivity.
Qed.
End Unescape.

Lemma escaped_none (code : ascii -> option ascii) (s : string) :
  (forall c, code c = None) -> escaped code s = s.
Proof.
  intros H. induction s as [|c r IH]; [reflexivity|].
  cbn [escaped]. rewrite H, IH. reflexivity.
Qed.

Lemma copy_escape_escaped (s : string) :
  every_char (is_not backslash) s = true ->
  copy_escape s = escaped copy_code s.
Proof.
  induction s as [|c r IH]; [reflexivity|].
  cbn [every_char copy_escape escaped]. intros H.
  apply andb_true_iff in H as [Hc Hr]. rewrite (IH Hr).
  unfold is_not in Hc. apply negb_true_iff in Hc.
  change "\"%char with backslash. rewrite Hc. unfold copy_code.
  destruct (Ascii.eqb c Chr.tab); [reflexivity|].
  destruct (Ascii.eqb c Chr.nl); [reflexivity|].
  destruct (Ascii.eqb c Chr.cr); reflexivity.
Qed.

Lemma copy_code_letters (c y : ascii) : copy_code c = Some y -> y <> backslash.
Proof.
  unfold copy_code.
  destruct (Ascii.eqb c Chr.tab); [intros [= <-]; discriminate|].
  destruct (Ascii.eqb c Chr.nl); [intros [= <-]; discriminate|].
  destruct (Ascii.eqb c Chr.cr); [intros [= <-]; discriminate|discriminate].
Qed.

Lemma uncoded_letters (a : ascii) (code : ascii -> option ascii) :
  (forall c y, code c = Some y -> y <> backslash) ->
  forall c y, uncoded a code c = Some y -> y <> backslash.
Proof.
  intros H c y. unfold uncoded. destruct (Ascii.eqb c a); [discriminate|].
  apply H.
Qed.

(** X15: [decode_copy_text] undoes the escaping COPY applies to any text
    that holds no backslash, whatever tabs, newlines and carriage returns it
    holds. *)
Theorem decode_copy_text_unescapes (s : string) :
  every_char (is_not backslash) s = true ->
  decode_copy_text (copy_escape s) = s.
Proof.
  intros Hs. rewrite (copy_escape_escaped s Hs). unfold decode_copy_text.
  change "\\" with (String backslash (String backslash "")).
  change "\" with (String backslash "").
  change "\t" with (String backslash (String "t"%char "")).
  change "\n" with (String backslash (String "n"%char "")).
  change "\r" with (String backslash (String "r"%char "")).
  unfold Str.tab, Str.nl, Str.cr.
  rewrite (replace_no_double copy_code copy_code_letters s Hs).
  rewrite (replace_unescapes copy_code copy_code_letters Chr.tab "t" s
             eq_refl); [|clear; intros c | exact Hs].
  2:{ unfold copy_code. destruct (Ascii.eqb_spec c Chr.tab); [auto|].
      destruct (Ascii.eqb c Chr.nl); [discriminate|].
      destruct (Ascii.eqb c Chr.cr); discriminate. }
  rewrite (replace_unescapes _ (uncoded_letters Chr.tab _ copy_code_letters)
             Chr.nl "n" s eq_refl); [|clear; intros c | exact Hs].
  2:{ unfold uncoded, copy_code. destruct (Ascii.eqb c Chr.tab); [discriminate|].
      destruct (Ascii.eqb_spec c Chr.nl); [auto|].
      destruct (Ascii.eqb c Chr.cr); discriminate. }
  rewrite (replace_unescapes _
             (uncoded_letters Chr.nl _
                (uncoded_letters Chr.tab _ copy_code_letters))
             Chr.cr "r" s eq_refl); [|clear; intros c | exact Hs].
  2:{ unfold uncoded, copy_code. destruct (Ascii.eqb c Chr.nl); [discriminate|].
      destruct (Ascii.eqb c Chr.tab); [discriminate|].
      destruct (Ascii.eqb_spec c Chr.cr); [auto|discriminate]. }
  apply escaped_none. intros c. unfold uncoded, copy_code.
  destruct (Ascii.eqb c Chr.cr) eqn:E3; [reflexivity|].
  destruct (Ascii.eqb c Chr.nl) eqn:E2; [reflexivity|].
  destruct (Ascii.eqb c Chr.tab) eqn:E1; [reflexivity|].
  reflexivity.
Qed.

Lemma decode_copy_text_unescapes_witness :
  decode_copy_text
    (copy_escape ("Pizza" ++ Str.tab ++ "ottima" ++ Str.nl ++ "torneremo"))
  = ("Pizza" ++ Str.tab ++ "ottima" ++ Str.nl ++ "torneremo")%string.
Proof.
  apply decode_copy_text_unescapes. reflexivity.
Defined.

(** ** Rows and the file they are in *)

Lemma own_rows_writerow (f : out_file) (loc : Location.t) (nw kn : bool)
      (parts : list string) :
  still_open f -> own_rows_only f -> loc = opened_for f ->
  own_rows_only
    (writerow (review_row nw kn (Location.id (opened_for f)) loc parts) f).
Proof.
  intros Hopen Hown ->. unfold own_rows_only.
  rewrite (data_rows_writerow _ f Hopen).
  apply Forall_app. split; [exact Hown|].
  constructor; [|constructor]. repeat split.
Qed.

Lemma scan_reviews_own_rows (locations : list Location.t) (business_id : Z)
      (nw kn : bool) (pe : Z) (f : list string) :
  NoDup (map Location.id locations) ->
  forall (in_copy : bool) (line_no : nat) (st : scan_state),
    scanning locations st ->
    Forall own_rows_only (files st) ->
    Forall own_rows_only
           (files (fst (scan_reviews business_id (make_loc_by_id locations)
                                     (snd (open_writers locations)) nw kn pe
                                     in_copy line_no f st))).
Proof.
  intros Hnd. induction f as [|raw f IH]; intros in_copy line_no st Hst Hown;
    [exact Hown|].
  cbn [scan_reviews].
  destruct in_copy; cbn [negb].
  2:{ destruct (Str.startswith "COPY public.reviews_review " (line_of raw));
        apply IH; assumption. }
  destruct (String.eqb (line_of raw) "\."); [exact Hown|].
  destruct (List.length (split_tabs (line_of raw)) =? 17)%nat;
    cbn [negb]; [|exact Hown].
  destruct (export_row business_id (make_loc_by_id locations)
              (snd (open_writers locations)) nw kn pe
              (split_tabs (line_of raw)) st) as [st'|e] eqn:Hbody;
    [|exact Hown].
  pose proof (export_row_scanning locations business_id nw kn pe _ st st'
                Hst Hbody) as Hst'.
  apply IH; [exact Hst'|].
  destruct (export_row_cases locations business_id nw kn pe
              (split_tabs (line_of raw)) st Hst)
    as [H|[H|(lid & P11 & P12 & Hin)]].
  - rewrite H in Hbody. injection Hbody as <-. exact Hown.
  - rewrite H in Hbody. discriminate.
  - destruct (export_row_accepts locations business_id nw kn pe
                (split_tabs (line_of raw)) st lid Hst P11 P12 Hin)
      as (loc & h & g & c & st2 & Hloc & _ & Hg & Hid & _ & Hb & _ & Hfs & _).
    rewrite Hb in Hbody. injection Hbody as <-. rewrite Hfs.
    assert (Hgin : In g (files st)) by (eapply nth_error_In; exact Hg).
    assert (Hlin : In (opened_for g) locations).
    { rewrite <- (scanning_files _ _ Hst). apply in_map, Hgin. }
    pose proof (make_loc_by_id_get locations (opened_for g) Hnd Hlin) as Hget.
    rewrite Hid, Hloc in Hget. injection Hget as Hl.
    destruct (update_split h
                (writerow (review_row nw kn lid loc (split_tabs (line_of raw))))
                (files st) g Hg) as (pre & post & Hsplit & _ & ->).
    rewrite Hsplit in Hown. apply Forall_app in Hown as [Hpre Hpost].
    inversion Hpost as [|? ? Hgo Hpost']; subst.
    apply Forall_app. split; [exact Hpre|]. constructor; [|exact Hpost'].
    apply own_rows_writerow; [|exact Hgo|reflexivity].
    pose proof (scanning_open _ _ Hst) as Hopen.
    rewrite Forall_forall in Hopen. exact (Hopen g Hgin).
Qed.

(** X16: for locations with distinct ids, whatever the reviews file holds
    and however the export ends, every data row found in an output file has
    ten cells and carries the id and the name of the location that file was
    opened for. *)
Theorem export_reviews_rows_belong (reviews : list string) (business_id : Z)
        (locations : list Location.t) (nw kn : bool) (pe : Z) :
  NoDup (map Location.id locations) ->
  Forall own_rows_only
         (files_after (export_reviews reviews business_id locations nw kn pe)).
Proof.
  intros Hnd.
  pose proof (start_scanning locations) as Hst0.
  assert (Hown0 : Forall own_rows_only (files (start_state locations))).
  { unfold start_state, open_writers. cbn [files].
    rewrite open_writers_from_files. cbn [app].
    apply Forall_forall. intros f Hin. apply in_map_iff in Hin as (l & <- & _).
    constructor. }
  pose proof (scan_reviews_own_rows locations business_id nw kn pe reviews Hnd
                false 0 (start_state locations) Hst0 Hown0) as Hown.
  pose proof (scan_reviews_scanning locations business_id nw kn pe reviews
                false 0 (start_state locations) Hst0) as Hst.
  unfold export_reviews, after_scan.
  destruct (scan_reviews business_id (make_loc_by_id locations)
              (snd (open_writers locations)) nw kn pe false 0 reviews
              (start_state locations)) as [st raised].
  cbn [fst] in Hown, Hst.
  assert (Hclosed : Forall own_rows_only (map close (files st))).
  { apply Forall_map. eapply Forall_impl; [|exact Hown].
    intros f Hf. unfold own_rows_only, data_rows, close, belongs in *.
    cbn [flushed pending opened_for]. rewrite app_nil_r. exact Hf. }
  destruct raised; cbn [files_after];
    rewrite (finally_closes locations st Hnd Hst); exact Hclosed.
Qed.

Lemma export_reviews_rows_belong_witness :
  Forall own_rows_only
         (files_after (export_reviews broken_reviews 7 two_locations
                                      true false 0)).
Proof.
  apply export_reviews_rows_belong. apply two_locations_distinct.
Defined.

(** ** Trimmed text *)

Section ReplaceChar.
Variable cls : ascii -> bool.
Variable a : ascii.
Variable new : string.
Hypothesis a_in : cls a = true.
Hypothesis new_not_nil : new <> "".
Hypothesis new_right : Str.rstrip cls new = new.

Let rep := Str.replace_from 0 (String a "") new.

Lemma rep_cons (c : ascii) (r : string) :
  rep (String c r)
  = if Ascii.eqb a c then (new ++ rep r)%string else String c (rep r).
Proof.
  unfold rep. cbn [Str.replace_from]. unfold Str.startswith.
  cbn [Str.drop_prefix String.length Nat.sub].
  destruct (Ascii.eqb a c); reflexivity.
Qed.

Lemma rep_nil (r : string) : rep r = "" -> r = "".
Proof.
  destruct r as [|c r]; [reflexivity|]. rewrite rep_cons.
  destruct (Ascii.eqb a c); [|discriminate].
  destruct new; [contradiction|discriminate].
Qed.

Lemma lstrip_rep (t : string) :
  Str.lstrip cls t = t -> Str.lstrip cls (rep t) = rep t.
Proof.
  destruct t as [|c r]; [reflexivity|]. intros H. rewrite rep_cons.
  destruct (Ascii.eqb_spec a c) as [<-|_].
  - cbn [Str.lstrip] in H. rewrite a_in in H.
    exfalso. clear - H.
    assert (L : forall s, String.length (Str.lstrip cls s) <= String.length s).
    { induction s as [|d s IH]; simpl; [lia|].
      destruct (cls d); simpl; lia. }
    pose proof (L r) as Hr. rewrite H in Hr. simpl in Hr. lia.
  - cbn [Str.lstrip] in *. destruct (cls c); [|reflexivity].
    exfalso. clear - H.
    assert (L : forall s, String.length (Str.lstrip cls s) <= String.length s).
    { induction s as [|d s IH]; simpl; [lia|].
      destruct (cls d); simpl; lia. }
    pose proof (L r) as Hr. rewrite H in Hr. simpl in Hr. lia.
Qed.

Lemma rstrip_rep (t : string) :
  Str.rstrip cls t = t -> Str.rstrip cls (rep t) = rep t.
Proof.
  induction t as [|c r IH]; [reflexivity|]. intros H.
  destruct (rstrip_fixed_tail cls c r H) as [->|Hr].
  - rewrite rep_cons. destruct (Ascii.eqb a c).
    + change (rep "") with "". rewrite append_nil_r. exact new_right.
    + exact H.
  - specialize (IH Hr). rewrite rep_cons.
    destruct (rep r) as [|d x] eqn:E.
    + apply rep_nil in E. subst r. destruct (Ascii.eqb a c).
      * rewrite append_nil_r. exact new_right.
      * exact H.
    + destruct (Ascii.eqb a c).
      * apply rstrip_app_fixed; [discriminate|exact IH].
      * change (String c (String d x)) with (String c "" ++ String d x)%string.
        apply rstrip_app_fixed; [discriminate|exact IH].
Qed.
End ReplaceChar.

(** X17: whatever the text and the flag, [normalize_text] returns a text
    with no white space at either end: stripping it again changes
    nothing. *)
Theorem normalize_text_trimmed (s : string) (keep_newlines : bool) :
  Str.strip (normalize_text s keep_newlines) = normalize_text s keep_newlines.
Proof.
  unfold normalize_text.
  set (x := Str.sub_runs Chr.is_nl Str.nl false
              (Str.sub_runs Chr.is_blank " " false
                 (Str.replace Str.cr Str.nl
                    (Str.replace (Str.cr ++ Str.nl) Str.nl s)))).
  assert (Hl : Str.lstrip Chr.is_space (Str.strip x) = Str.strip x)
    by apply lstrip_lstrip.
  assert (Hr : Str.rstrip Chr.is_space (Str.strip x) = Str.strip x)
    by (apply rstrip_lstrip, rstrip_rstrip).
  destruct keep_newlines; cbn [negb].
  - unfold Str.strip at 1. rewrite Hr. exact Hl.
  - unfold Str.strip at 1. unfold Str.replace, Str.nl.
    rewrite (rstrip_rep Chr.is_space Chr.nl "\n" ltac:(discriminate)
               eq_refl (Str.strip x) Hr).
    apply (lstrip_rep Chr.is_space Chr.nl "\n" eq_refl (Str.strip x) Hl).
Qed.

(** ** What a result of the reader and of the resolver tells *)

Lemma copy_rows_returned (table : string) (n : nat) (f rest : list string) :
  outcome (copy_rows_from table true (Some n) f) = Returned rest ->
  exists seg term,
    f = seg ++ term :: rest
    /\ is_terminator term = true
    /\ Forall (fun raw => is_terminator raw = false) seg
    /\ Forall (fun raw => List.length (row_of raw) = n) seg
    /\ yielded (copy_rows_from table true (Some n) f) = map row_of seg.
Proof.
  induction f as [|raw f IH]; [discriminate|].
  cbn [copy_rows_from negb].
  destruct (String.eqb (line_of raw) "\.") eqn:Et.
  { cbn [outcome]. intros [= <-]. exists [], raw.
    repeat split; try constructor. exact Et. }
  unfold count_differs.
  destruct (Nat.eqb_spec (List.length (split_tabs (line_of raw))) n)
    as [En|En]; cbn [negb]; [|discriminate].
  cbn [yield outcome yielded]. intros H.
  destruct (IH H) as (seg & term & -> & Ht & Hseg & Hn & Hy).
  exists (raw :: seg), term. rewrite Hy.
  repeat split; try constructor; assumption.
Qed.

(** X18: the reader returns only at a terminator: when it returns leaving
    [rest] unread, the file is made of lines that are no header for the
    table, the header, rows of the size it declares, a terminator and
    [rest], and the rows yielded are those rows. *)
Theorem iter_copy_rows_returned (file : list string) (table : string)
        (rest : list string) :
  outcome (iter_copy_rows file table) = Returned rest ->
  exists pre hdr n seg term,
    file = pre ++ hdr :: seg ++ term :: rest
    /\ Forall (fun raw => is_header table raw = None) pre
    /\ is_header table hdr = Some n
    /\ Forall (fun raw => is_terminator raw = false) seg
    /\ Forall (fun raw => List.length (row_of raw) = n) seg
    /\ is_terminator term = true
    /\ yielded (iter_copy_rows file table) = map row_of seg.
Proof.
  unfold iter_copy_rows.
  destruct (copy_rows_find_header table None file)
    as [Hnone|(pre & hdr & n & after & -> & Hpre & Hhdr)].
  - rewrite <- (app_nil_r file).
    rewrite (copy_rows_skip table None file [] Hnone). discriminate.
  - rewrite (copy_rows_skip table None pre _ Hpre).
    rewrite (copy_rows_enter table None hdr n _ Hhdr).
    intros H.
    destruct (copy_rows_returned table n after rest H)
      as (seg & term & -> & Ht & Hseg & Hn & Hy).
    exists pre, hdr, n, seg, term. repeat split; assumption.
Qed.

Lemma iter_copy_rows_returned_witness :
  exists pre hdr n seg term,
    sample_locations = pre ++ hdr :: seg ++ term :: []
    /\ is_header "business_location" hdr = Some n
    /\ is_terminator term = true
    /\ yielded (iter_copy_rows sample_locations "business_location")
       = map row_of seg.
Proof.
  destruct (iter_copy_rows_returned sample_locations "business_location" []
              eq_refl)
    as (pre & hdr & n & seg & term & Hf & _ & Hh & _ & _ & Ht & Hy).
  exists pre, hdr, n, seg, term. auto.
Defined.

Lemma for_each_match_business_readable (name : string)
      (rows : list (list string)) :
  forall acc ms,
    for_each (match_business name) rows acc = Ok ms ->
    forallb readable_business rows = true.
Proof.
  induction rows as [|row rows IH]; intros acc ms; [reflexivity|].
  cbn [for_each forallb]. unfold match_business at 1, readable_business.
  unfold item, int, is_int.
  destruct row as [|r0 [|r1 [|r2 more]]]; cbn [nth_error bind nth];
    try discriminate.
  - destruct (PyInt.parse r0); cbn [bind]; discriminate.
  - destruct (PyInt.parse r0); cbn [bind]; discriminate.
  - destruct (PyInt.parse r0); cbn [bind]; [|discriminate].
    cbn [List.length Nat.leb andb].
    destruct (String.eqb (decode_copy_text r2) name); cbn [bind]; apply IH.
Qed.

Lemma for_each_keep_location_readable (business_id : Z)
      (rows : list (list string)) :
  forall acc locs,
    for_each (keep_location business_id) rows acc = Ok locs ->
    forallb readable_location rows = true.
Proof.
  induction rows as [|row rows IH]; intros acc locs; [reflexivity|].
  cbn [for_each forallb]. unfold keep_location at 1, readable_location.
  unfold item, int, is_int.
  destruct row as [|r0 [|r1 [|r2 [|r3 more]]]]; cbn [nth_error bind nth];
    try discriminate;
    try (destruct (PyInt.parse r0); cbn [bind]; discriminate).
  destruct (PyInt.parse r0); cbn [bind]; [|discriminate].
  destruct (PyInt.parse r3); cbn [bind]; [|discriminate].
  cbn [List.length Nat.leb andb].
  destruct (_ =? business_id)%Z; cbn [bind]; apply IH.
Qed.

(** X19: a result of the resolver tells that the block was sound.  When
    [find_business_id_by_name] returns a business, the reader returned from
    the businesses block, and exactly one of its rows bears the name: the
    business is that row's.  When [load_locations_for_business] returns,
    the reader returned from the locations block and the list is the sorted
    list of the records of the rows the business owns. *)
Theorem resolver_sound :
  (forall file name biz,
      find_business_id_by_name file name = Ok biz ->
      exists rows rest row,
        iter_copy_rows file "business_business" = MkRead rows (Returned rest)
        /\ forallb readable_business rows = true
        /\ filter (named name) rows = [row]
        /\ biz = business_of row)
  /\ (forall file business_id locs,
         load_locations_for_business file business_id = Ok locs ->
         exists rows rest,
           iter_copy_rows file "business_location"
           = MkRead rows (Returned rest)
           /\ forallb readable_location rows = true
           /\ locs = sorted_by_id
                       (map location_of (filter (owned_by business_id) rows))).
Proof.
  split.
  - intros file name biz. unfold find_business_id_by_name, for_rows.
    destruct (iter_copy_rows file "business_business") as [rows ending].
    cbn [yielded outcome].
    destruct (for_each (match_business name) rows []) as [ms|] eqn:E;
      cbn [bind]; [|discriminate].
    pose proof (for_each_match_business_readable name rows [] ms E) as Hok.
    rewrite (for_each_match_business name rows [] Hok) in E.
    injection E as <-. cbn [app].
    destruct ending as [rest|why]; cbn [bind die]; [|discriminate].
    destruct (filter (named name) rows) as [|row [|row' more]] eqn:F;
      cbn [map].
    + rewrite (for_each_close_match name rows [] Hok). discriminate.
    + intros [= <-]. exists rows, rest, row. auto.
    + discriminate.
  - intros file business_id locs. unfold load_locations_for_business, for_rows.
    destruct (iter_copy_rows file "business_location") as [rows ending].
    cbn [yielded outcome].
    destruct (for_each (keep_location business_id) rows []) as [ls|] eqn:E;
      cbn [bind]; [|discriminate].
    pose proof (for_each_keep_location_readable business_id rows [] ls E)
      as Hok.
    rewrite (for_each_keep_location business_id rows [] Hok) in E.
    injection E as <-. cbn [app].
    destruct ending as [rest|why]; cbn [bind die]; [|discriminate].
    intros [= <-]. exists rows, rest. auto.
Qed.

Lemma resolver_sound_witness :
  exists rows rest row,
    iter_copy_rows sample_businesses "business_business"
    = MkRead rows (Returned rest)
    /\ filter (named "Acme Foods") rows = [row]
    /\ Business.mk 7 "Acme Foods" = business_of row.
Proof.
  destruct (proj1 resolver_sound sample_businesses "Acme Foods"
              (Business.mk 7 "Acme Foods") eq_refl)
    as (rows & rest & row & Hr & _ & Hf & Hb).
  exists rows, rest, row. auto.
Defined.

(** ** The export on a file system that may refuse *)



(** X22: when the file system grants the directory and the files of the
    first locations and refuses the file of the next one, the export ends
    with OSError before it reads the reviews: it prints nothing, and the
    files opened so far are left as [open_writers] made them, none closed,
    each with its header row in the buffer and nothing flushed; no file is
    opened for the locations that follow. *)
Theorem export_reviews_in_open_refused (d : disk) (reviews : list string)
        (business_id : Z) (opened : list Location.t) (loc : Location.t)
        (rest : list Location.t) (nw kn : bool) (pe : Z) :
  can_mkdir d = true ->
  Forall (fun l => can_open d (filename l) = true) opened ->
  can_open d (filename loc) = false ->
  let r := export_reviews_in d reviews business_id (opened ++ loc :: rest)
                             nw kn pe in
  result r = Raise OSError
  /\ printed_lines r = []
  /\ files_after r = map fresh_file opened
  /\ Forall (fun f => closes f = 0%nat /\ flushed f = []
                      /\ pending f = [header_row])
            (files_after r).
Proof.
  intros Hmk Hall Hloc r.
  assert (Hr : r = MkRun (map fresh_file opened) [] (Raise OSError)).
  { subst r. unfold export_reviews_in, open_writers_in.
    rewrite Hmk, (open_writers_on_refused d opened loc rest [] [] Hall Hloc).
    reflexivity. }
  rewrite Hr. cbn [result printed_lines files_after].
  repeat split. apply Forall_forall. intros f Hin.
  apply in_map_iff in Hin as (l & <- & _). repeat split.
Qed.

Lemma export_reviews_in_open_refused_witness :
  let r := export_reviews_in uptown_taken broken_reviews 7
             ([Location.mk 3 "Downtown" 7] ++ Location.mk 9 "Uptown" 7
                :: [Location.mk 12 "Pier" 7])
             false true 5 in
  result r = Raise OSError
  /\ printed_lines r = []
  /\ files_after r = [fresh_file (Location.mk 3 "Downtown" 7)]
  /\ Forall (fun f => closes f = 0%nat /\ flushed f = []
                      /\ pending f = [header_row])
            (files_after r).
Proof.
  assert (Hall : Forall (fun l => can_open uptown_taken (filename l) = true)
                        [Location.mk 3 "Downtown" 7])
    by (repeat constructor).
  exact (export_reviews_in_open_refused uptown_taken broken_reviews 7
           [Location.mk 3 "Downtown" 7] (Location.mk 9 "Uptown" 7)
           [Location.mk 12 "Pier" 7] false true 5 eq_refl Hall eq_refl).
Defined.
